(** * Magnet-based bruxism detection: calibration, tracking and features

    A shallow embedding of [magnet_calibration.py] and
    [magnet_simulation.py].

    Numbers.  The programs compute with numpy's float64.  The embedding
    reads every float as the real number it stands for ([R]), so rounding,
    overflow and NaN are outside the model; integer quantities (lengths,
    indices, [range]) are [nat] and [Z].

    Libraries.  [np.linalg.lstsq], [np.linalg.eigh],
    [scipy.optimize.minimize], [scipy.signal.welch] and magpylib's
    [getB] are not code of this repository: they are Section variables,
    and what a proof needs of their documented behaviour is a stated
    premise of that proof. *)

From Stdlib Require Import ZArith List Bool Lia Reals Lra Psatz.
Import ListNotations.

Set Implicit Arguments.

(* ################################################################## *)
(** * Part I: the programs *)
(* ################################################################## *)

(* ================================================================== *)
(** * Python built-ins used by both scripts *)
(* ================================================================== *)

Module Py.

Local Open Scope Z_scope.

(** [len(range(start, stop, step))] for a positive [step], as CPython
    computes it: [(stop - start - 1) // step + 1] when [start < stop],
    else [0].  ([range] raises [ValueError] when [step] is [0]; negative
    steps do not occur in the sources.) *)
Definition range_len (start stop step : Z) : Z :=
  if start <? stop then (stop - start - 1) / step + 1 else 0.

(** [range(start, stop, step)]: the values [start + k*step]. *)
Definition range (start stop step : Z) : list Z :=
  map (fun k => start + Z.of_nat k * step)
      (seq 0 (Z.to_nat (range_len start stop step))).

(** [l[i:j]] for [0 <= i <= j]: Python clamps both ends to [len(l)]. *)
Definition slice {A : Type} (l : list A) (i j : Z) : list A :=
  firstn (Z.to_nat (j - i)) (skipn (Z.to_nat i) l).

End Py.

(* ================================================================== *)
(** * numpy arrays of shape (3,), (3,3) and (n,) *)
(* ================================================================== *)

Module Np.

Local Open Scope R_scope.

(** A 1-D array of three floats: a sample, a field vector, a position. *)
Record Vec3 : Type := V3 { vx : R; vy : R; vz : R }.

(** A 3x3 array, by rows: [m[i][j]] is component [j] of row [i]. *)
Record Mat3 : Type := M3 { row0 : Vec3; row1 : Vec3; row2 : Vec3 }.

Definition vadd (a b : Vec3) : Vec3 := V3 (vx a + vx b) (vy a + vy b) (vz a + vz b).
Definition vsub (a b : Vec3) : Vec3 := V3 (vx a - vx b) (vy a - vy b) (vz a - vz b).
Definition vscale (c : R) (a : Vec3) : Vec3 := V3 (c * vx a) (c * vy a) (c * vz a).
Definition vdiv (a : Vec3) (c : R) : Vec3 := V3 (vx a / c) (vy a / c) (vz a / c).
Definition vzero : Vec3 := V3 0 0 0.
Definition dot (a b : Vec3) : R := vx a * vx b + vy a * vy b + vz a * vz b.

Definition col0 (m : Mat3) : Vec3 := V3 (vx (row0 m)) (vx (row1 m)) (vx (row2 m)).
Definition col1 (m : Mat3) : Vec3 := V3 (vy (row0 m)) (vy (row1 m)) (vy (row2 m)).
Definition col2 (m : Mat3) : Vec3 := V3 (vz (row0 m)) (vz (row1 m)) (vz (row2 m)).

(** [m.T] *)
Definition transpose (m : Mat3) : Mat3 := M3 (col0 m) (col1 m) (col2 m).

(** [v @ m] for a 1-D [v]: the row vector times the matrix. *)
Definition vecmat (v : Vec3) (m : Mat3) : Vec3 :=
  V3 (dot v (col0 m)) (dot v (col1 m)) (dot v (col2 m)).

(** [m @ v] for a 1-D [v]: the matrix times the column vector. *)
Definition matvec (m : Mat3) (v : Vec3) : Vec3 :=
  V3 (dot (row0 m) v) (dot (row1 m) v) (dot (row2 m) v).

(** [a @ b] *)
Definition matmul (a b : Mat3) : Mat3 :=
  M3 (vecmat (row0 a) b) (vecmat (row1 a) b) (vecmat (row2 a) b).

(** [np.diag(v)] for a 1-D [v]. *)
Definition diag (v : Vec3) : Mat3 :=
  M3 (V3 (vx v) 0 0) (V3 0 (vy v) 0) (V3 0 0 (vz v)).

Definition identity : Mat3 := diag (V3 1 1 1).

Definition vmap (f : R -> R) (v : Vec3) : Vec3 := V3 (f (vx v)) (f (vy v)) (f (vz v)).

(** A ufunc applied to a 3x3 array: entry by entry. *)
Definition mmap (f : R -> R) (m : Mat3) : Mat3 :=
  M3 (vmap f (row0 m)) (vmap f (row1 m)) (vmap f (row2 m)).

(** [np.sqrt] on a float that is not negative.  On a negative float numpy
    yields [nan] (and a RuntimeWarning), which no real number stands for;
    [sqrt] of the reals yields [0] there.  The domain of this definition is
    the floats that are not negative: every statement below about the value
    of a root has the premise that its argument is not negative ([nonneg3]
    for the eigenvalues of the fit), or a premise that implies it. *)
Definition np_sqrt (r : R) : R := sqrt r.

(** [np.sum] of a 1-D array: the running sum from [0]. *)
Definition np_sum (l : list R) : R := fold_left Rplus l 0.

(** [np.min] and [np.max] of a 1-D array.  numpy raises [ValueError] on an
    empty array; both callers below have checked [len(data) >= 50]. *)
Definition np_min (l : list R) : R :=
  match l with
  | [] => 0
  | a :: rest => fold_left Rmin rest a
  end.

Definition np_max (l : list R) : R :=
  match l with
  | [] => 0
  | a :: rest => fold_left Rmax rest a
  end.

(** [a >= c] and [a <= c] on floats, as booleans. *)
Definition geb (a c : R) : bool := if Rle_dec c a then true else false.
Definition leb (a c : R) : bool := if Rle_dec a c then true else false.

(** [a[mask]] for a boolean [mask] of the length of [a]. *)
Definition bool_index (a : list R) (mask : list bool) : list R :=
  map fst (filter snd (combine a mask)).

(** Sum of a list of vectors along axis 0, and [np.mean(rows, axis=0)]. *)
Definition vsum (rows : list Vec3) : Vec3 := fold_left vadd rows vzero.
Definition mean_axis0 (rows : list Vec3) : Vec3 :=
  vdiv (vsum rows) (INR (length rows)).

Definition symmetric (m : Mat3) : Prop := transpose m = m.

(** [q] has orthonormal columns and rows. *)
Definition orthogonal (q : Mat3) : Prop :=
  matmul (transpose q) q = identity /\ matmul q (transpose q) = identity.

End Np.

(* ================================================================== *)
(** * magnet_simulation.py *)
(* ================================================================== *)

Module Simulation.

Import Np.

(** ** Section 4 of the script: the position estimates *)

(** What [scipy.optimize.minimize] hands back, the fields the script or the
    specification names. *)
Record OptimizeResult : Type := mkResult {
  x : Vec3;          (* the best point found *)
  success : bool;    (* whether the search converged *)
  nit : nat          (* iterations performed *)
}.

(** [last_guess = [0, 0, 0.01]]: jaw closed, magnet 10 mm above the sensor. *)
Definition initial_guess : Vec3 := V3 0 0 0.01.

(** [options={'maxiter': 2000}] *)
Definition maxiter : nat := 2000.

(** The two lists the loop at lines 67-76 updates. *)
Record TrackState : Type := mkTrack {
  estimated_positions : list Vec3;
  last_guess : Vec3
}.

Section Solver.

(** [magnet.getB(sensor_pos)] once [magnet.position] has been set to the
    argument (magpylib; the magnet and [sensor_pos] are fixed globals). *)
Variable getB : Vec3 -> Vec3.

(** [minimize(f, x0, method='Nelder-Mead', options={'maxiter': n})]. *)
Variable minimize : (Vec3 -> R) -> Vec3 -> nat -> OptimizeResult.

(** [objective(pos, measured_B, sensor_pos, magnet)]:
    [np.sum((predicted_B - measured_B) ** 2)]. *)
Definition objective (pos measured_B : Vec3) : R :=
  let predicted_B := getB pos in
  let d := vsub predicted_B measured_B in
  np_sum [(vx d * vx d)%R; (vy d * vy d)%R; (vz d * vz d)%R].

(** One turn of [for B_meas in noisy_B]. *)
Definition solve_step (st : TrackState) (B_meas : Vec3) : TrackState :=
  let result := minimize (fun pos => objective pos B_meas) (last_guess st) maxiter in
  {| estimated_positions := estimated_positions st ++ [x result];
     last_guess := x result |}.

(** The whole loop, from [estimated_positions = []] and the initial guess. *)
Definition track (noisy_B : list Vec3) : TrackState :=
  fold_left solve_step noisy_B
    {| estimated_positions := []; last_guess := initial_guess |}.

(** The estimates a chain of solves yields when the first is seeded with
    [seed] and each later one with the estimate before it. *)
Fixpoint chained_estimates (seed : Vec3) (noisy_B : list Vec3) : list Vec3 :=
  match noisy_B with
  | [] => []
  | B_meas :: rest =>
      let e := x (minimize (fun pos => objective pos B_meas) seed maxiter) in
      e :: chained_estimates e rest
  end.

End Solver.

(** ** Section 5 of the script: the feature windows *)

Local Open Scope Z_scope.

(** [window_size = 50]: one second at 50 Hz. *)
Definition window_size : Z := 50.

(** [len(t)] for [t = np.linspace(0, 15, 750)]. *)
Definition len_t : Z := 750.

(** [range(0, len(t) - window_size, window_size)] for a series of [n]
    samples and windows of [w]. *)
Definition window_starts (n w : Z) : list Z := Py.range 0 (n - w) w.

(** The number of samples that some window holds: windows are
    [noisy_B[i:i + w]] for [i] in [window_starts]. *)
Definition covered (n w : Z) : Z := Py.range_len 0 (n - w) w * w.

(** Sample [j] lies in a feature window. *)
Definition in_some_window (n w j : Z) : Prop :=
  exists i, In i (window_starts n w) /\ i <= j < i + w.

(** [window_B = noisy_B[i:i + window_size]] for each [i] of the loop. *)
Definition feature_windows (w : Z) (noisy_B : list Vec3) : list (list Vec3) :=
  map (fun i => Py.slice noisy_B i (i + w))
      (window_starts (Z.of_nat (length noisy_B)) w).

Local Close Scope Z_scope.
Local Open Scope R_scope.

Section Features.

(** [welch(x, fs=fs, nperseg=nperseg)] of scipy.signal: the sample
    frequencies and the power spectral density at each of them. *)
Variable welch : list R -> R -> Z -> list R * list R.

(** [idx = (freq >= 1) & (freq <= 2)] *)
Definition band_mask (freq : list R) : list bool :=
  map (fun f => geb f 1 && leb f 2) freq.

(** Lines 105-107: the spectral power of one window. *)
Definition spectral_power (window_B : list Vec3) : R :=
  let '(freq, psd) := welch (map vx window_B) 50 window_size in
  let idx := band_mask freq in
  let power := np_sum (bool_index psd idx) * 1e12 in
  power.

(** [features['spectral_power']] after the loop. *)
Definition spectral_power_feature (noisy_B : list Vec3) : list R :=
  map spectral_power (feature_windows window_size noisy_B).

End Features.

(** The sum of the density values whose frequency lies in [[lo, hi]]. *)
Fixpoint band_power (lo hi : R) (freq psd : list R) : R :=
  match freq, psd with
  | f :: freq', p :: psd' =>
      (if Rle_dec lo f then if Rle_dec f hi then p else 0 else 0)
      + band_power lo hi freq' psd'
  | _, _ => 0
  end.

Local Close Scope R_scope.

(** A stand-in for [welch] in worked examples: four frequencies, one hertz
    apart, with a fixed density. *)
Definition four_bin_welch (_ : list R) (_ : R) (_ : Z) : list R * list R :=
  ([0; 1; 2; 3]%R, [5; 6; 7; 8]%R).

Local Open Scope R_scope.

(** ** Section 2 of the script: the jaw motion *)

(** [np.linspace(start, stop, num)]: [num] values, [start] first, in steps
    of [(stop - start) / (num - 1)]. *)
Definition linspace (start stop : R) (num : nat) : list R :=
  map (fun k => start + INR k * ((stop - start) / INR (num - 1))) (seq 0 num).

(** [t = np.linspace(0, 15, 750)] *)
Definition t : list R := linspace 0 15 750.

(** Lines 28-40: the position at time [ti]: normal motion before 5 s,
    grinding before 10 s, clenching from then on. *)
Definition true_position (ti : R) : Vec3 :=
  if Rlt_dec ti 5 then
    V3 (0.002 * sin (0.5 * ti)) (0.002 * cos (0.5 * ti)) (0.01 + 0.002 * sin (0.5 * ti))
  else if Rlt_dec ti 10 then
    V3 (0.005 * sin (1.5 * 2 * PI * ti)) (0.005 * cos (1.5 * 2 * PI * ti))
       (0.008 + 0.002 * sin (2 * PI * ti))
  else
    V3 (0.001 * sin (0.5 * ti)) (0.001 * cos (0.5 * ti)) (0.005 + 0.001 * sin (0.5 * ti)).

Definition true_positions : list Vec3 := map true_position t.

(** [sensor_pos = np.array([0, 0, 0])] *)
Definition sensor_pos : Vec3 := V3 0 0 0.

(** ** Section 5 of the script: magnitude and variance of a window *)

(** [np.mean] of a 1-D array, and [np.var]: the mean of the squared
    deviations from the mean. *)
Definition np_mean (l : list R) : R := np_sum l / INR (length l).

Definition np_var (l : list R) : R :=
  np_mean (map (fun a => (a - np_mean l) * (a - np_mean l)) l).

(** Lines 96-97: [np.mean(np.sqrt(np.sum(window_B**2, axis=1)) * 1e6)]. *)
Definition field_magnitude (window_B : list Vec3) : R :=
  let mag := map (fun b => np_sqrt (np_sum [vx b * vx b; vy b * vy b; vz b * vz b]) * 1e6)
                 window_B in
  np_mean mag.

(** Lines 100-102. *)
Definition lateral_variance (window_B : list Vec3) : R :=
  let var_Bx := np_var (map vx window_B) * 1e12 in
  let var_By := np_var (map vy window_B) * 1e12 in
  (var_Bx + var_By) / 2.

(** ** The resampling for playback *)

Section Resample.

(** The value at an abscissa of the cubic spline through the knots
    [(x, y)]: what scipy computes once [interp1d] has accepted the knots and
    the abscissa. *)
Variable cubic_spline : list R -> list R -> R -> R.

(** [a < c] on floats, as a boolean. *)
Definition ltb (a c : R) : bool := if Rlt_dec a c then true else false.

(** The abscissas go strictly upwards. *)
Fixpoint increasing (x : list R) : bool :=
  match x with
  | a :: rest =>
      match rest with
      | c :: _ => ltb a c && increasing rest
      | [] => true
      end
  | [] => true
  end.

(** [interp1d(x, y, kind='cubic')] for abscissas [x] in the order [linspace]
    gives them.  The constructor raises [ValueError] ([None]) when [x] and
    [y] differ in length, when there are fewer than 4 knots and when an
    abscissa is repeated.  The interpolant it returns raises [ValueError]
    ([None]) on an abscissa below [x[0]] or above [x[-1]]: [bounds_error]
    is on when no [fill_value] is passed. *)
Definition interp1d (x y : list R) : option (R -> option R) :=
  if negb (length y =? length x)%nat then None
  else if (length x <? 4)%nat then None
  else if negb (increasing x) then None
  else Some (fun x_new =>
               if ltb x_new (nth 0 x 0) || ltb (nth (length x - 1) x 0) x_new
               then None
               else Some (cubic_spline x y x_new)).

(** An interpolant called on an array: one out-of-range abscissa makes the
    whole call raise. *)
Fixpoint evaluate (interp_func : R -> option R) (x_new : list R) : option (list R) :=
  match x_new with
  | [] => Some []
  | a :: rest =>
      match interp_func a, evaluate interp_func rest with
      | Some value, Some values => Some (value :: values)
      | _, _ => None
      end
  end.

(** [smooth_resample(data, original_points, target_points)] for 1-D
    [data]; [None] when scipy raises. *)
Definition smooth_resample (data : list R) (original_points target_points : nat)
  : option (list R) :=
  let original_indices := linspace 0 (INR (length data) - 1) original_points in
  let target_indices := linspace 0 (INR (length data) - 1) target_points in
  match interp1d original_indices data with
  | None => None
  | Some interp_func => evaluate interp_func target_indices
  end.

End Resample.

(** A window with the bias [b] added to every sample. *)
Definition biased (b : Vec3) (window_B : list Vec3) : list Vec3 :=
  map (fun p => vadd p b) window_B.

(** An interpolant for worked examples: the value at the knot at or below
    the abscissa. *)
Definition knot_below (xs ys : list R) (x : R) : R :=
  nth (Z.to_nat (Int_part x)) ys 0.

(** Two minimisers for worked examples: both step from the seed by 1 mm
    along x; one reports convergence after one iteration, the other reports
    that it ran out of its budget. *)
Definition converging_minimize (_ : Vec3 -> R) (x0 : Vec3) (_ : nat) : OptimizeResult :=
  mkResult (vadd x0 (V3 0.001 0 0)) true 1.

Definition stalling_minimize (_ : Vec3 -> R) (x0 : Vec3) (budget : nat) : OptimizeResult :=
  mkResult (vadd x0 (V3 0.001 0 0)) false budget.

Local Close Scope R_scope.

End Simulation.

(* ================================================================== *)
(** * magnet_calibration.py *)
(* ================================================================== *)

Module Calibration.

Import Np.

Local Open Scope R_scope.

(** A row of the design matrix [D], and the coefficient vector [v]:
    a 1-D array of six floats, [c0 .. c5] for indices [0 .. 5]. *)
Record Vec6 : Type := V6 { c0 : R; c1 : R; c2 : R; c3 : R; c4 : R; c5 : R }.

Definition dot6 (a b : Vec6) : R :=
  c0 a * c0 b + c1 a * c1 b + c2 a * c2 b + c3 a * c3 b + c4 a * c4 b + c5 a * c5 b.

Definition sub6 (a b : Vec6) : Vec6 :=
  V6 (c0 a - c0 b) (c1 a - c1 b) (c2 a - c2 b) (c3 a - c3 b) (c4 a - c4 b) (c5 a - c5 b).

Definition zero6 : Vec6 := V6 0 0 0 0 0 0.

(** What [magnetometer_calibration.npz] holds: [offset] and [matrix], or
    nothing while the file does not exist. *)
Definition CalibrationFile : Type := option (Vec3 * Mat3).

(** ** Stage 1: the calibration fit *)

(** [np.min(data, axis=0)], [np.max(data, axis=0)] *)
Definition min_axis0 (data : list Vec3) : Vec3 :=
  V3 (np_min (map vx data)) (np_min (map vy data)) (np_min (map vz data)).

Definition max_axis0 (data : list Vec3) : Vec3 :=
  V3 (np_max (map vx data)) (np_max (map vy data)) (np_max (map vz data)).

(** Lines 66-67: [(max_vals + min_vals) / 2.0] *)
Definition hard_iron_offset (data : list Vec3) : Vec3 :=
  let min_vals := min_axis0 data in
  let max_vals := max_axis0 data in
  vdiv (vadd max_vals min_vals) 2.0.

(** Line 70: [data - hard_iron_offset], the offset taken from every row. *)
Definition center (data : list Vec3) (offset : Vec3) : list Vec3 :=
  map (fun p => vsub p offset) data.

(** Lines 71-76: the row of [D] for one centred sample. *)
Definition design_row (p : Vec3) : Vec6 :=
  V6 (vx p * vx p) (vy p * vy p) (vz p * vz p)
     (2 * vx p * vy p) (2 * vx p * vz p) (2 * vy p * vz p).

Definition design_matrix (centered_data : list Vec3) : list Vec6 :=
  map design_row centered_data.

(** [np.ones(n)] *)
Definition ones (n : nat) : list R := repeat 1 n.

(** Line 78: [M] from the six coefficients. *)
Definition assemble (v : Vec6) : Mat3 :=
  M3 (V3 (c0 v) (c3 v) (c4 v))
     (V3 (c3 v) (c1 v) (c5 v))
     (V3 (c4 v) (c5 v) (c2 v)).

Section Fit.

(** [np.linalg.lstsq(D, b, rcond=None)[0]] *)
Variable lstsq : list Vec6 -> list R -> Vec6.

(** [np.linalg.eigh(M)]: the eigenvalues, and the matrix whose columns are
    the eigenvectors. *)
Variable eigh : Mat3 -> Vec3 * Mat3.

(** Lines 70-80. *)
Definition soft_iron (data : list Vec3) (offset : Vec3) : Mat3 :=
  let centered_data := center data offset in
  let D := design_matrix centered_data in
  let v := lstsq D (ones (length centered_data)) in
  let M := assemble v in
  let '(eig_vals, eig_vecs) := eigh M in
  matmul (matmul eig_vecs (mmap np_sqrt (diag eig_vals))) (transpose eig_vecs).

(** [calculate_and_save_calibration(data)]: what it returns ([None] for the
    pair [(None, None)]) and the calibration file afterwards. *)
Definition calculate_and_save_calibration
    (file : CalibrationFile) (data : option (list Vec3))
  : option (Vec3 * Mat3) * CalibrationFile :=
  match data with
  | None => (None, file)
  | Some rows =>
      if (length rows <? 50)%nat then (None, file)
      else
        let offset := hard_iron_offset rows in
        let soft_iron_matrix := soft_iron rows offset in
        (Some (offset, soft_iron_matrix), Some (offset, soft_iron_matrix))
  end.

End Fit.

(** ** Stage 2: live tracking *)

(** [apply_calibration(raw_reading, offset, matrix)] *)
Definition apply_calibration (raw_reading offset : Vec3) (matrix : Mat3) : Vec3 :=
  vecmat (vsub raw_reading offset) matrix.

(** What one [ser.readline()] turns out to be.
    [Skipped]: an empty line, or one that does not split into three parts.
    [Garbled]: [decode] raises [UnicodeDecodeError] or [float] raises
    [ValueError].  [Reading raw]: three floats. *)
Inductive SerialLine : Type :=
  | Skipped
  | Garbled
  | Reading (raw_reading : Vec3).

(** Lines 127-140: the capture loop catches both exceptions and goes on. *)
Definition capture_step (offset : Vec3) (matrix : Mat3)
    (reference_readings : list Vec3) (line : SerialLine) : list Vec3 :=
  match line with
  | Reading raw_reading =>
      reference_readings ++ [apply_calibration raw_reading offset matrix]
  | Skipped | Garbled => reference_readings
  end.

Definition capture_reference (offset : Vec3) (matrix : Mat3)
    (lines : list SerialLine) : list Vec3 :=
  fold_left (capture_step offset matrix) lines [].

(** How the tracking loop ended: the lines ran out (Ctrl+C, or the device
    went away), or a garbled line raised an exception that the loop does not
    catch. *)
Inductive TrackingEnd : Type := Stopped | Raised.

(** Lines 155-171: the [field_delta] of every reading the loop gets to. *)
Fixpoint track_deltas (offset : Vec3) (matrix : Mat3) (reference_baseline : Vec3)
    (lines : list SerialLine) : list Vec3 * TrackingEnd :=
  match lines with
  | [] => ([], Stopped)
  | Skipped :: rest => track_deltas offset matrix reference_baseline rest
  | Garbled :: _ => ([], Raised)
  | Reading raw_reading :: rest =>
      let calibrated_reading := apply_calibration raw_reading offset matrix in
      let field_delta := vsub calibrated_reading reference_baseline in
      let '(deltas, e) := track_deltas offset matrix reference_baseline rest in
      (field_delta :: deltas, e)
  end.

(** [live_tracking_demo(ser, offset, matrix)], the serial port read as the
    lines of the three-second capture followed by the lines of the tracking
    loop.  [None]: no reference reading was captured, and the function
    returns before tracking. *)
Definition live_tracking_demo (offset : Vec3) (matrix : Mat3)
    (capture_lines tracking_lines : list SerialLine)
  : option (list Vec3 * TrackingEnd) :=
  let reference_readings := capture_reference offset matrix capture_lines in
  match reference_readings with
  | [] => None
  | _ :: _ =>
      let reference_baseline := mean_axis0 reference_readings in
      Some (track_deltas offset matrix reference_baseline tracking_lines)
  end.

(** ** What the claims speak of *)

(** [lo] is the least and [hi] the greatest value of [l]. *)
Definition is_min (lo : R) (l : list R) : Prop :=
  In lo l /\ forall a, In a l -> lo <= a.

Definition is_max (hi : R) (l : list R) : Prop :=
  In hi l /\ forall a, In a l -> a <= hi.

(** The left side of [Ax^2 + By^2 + Cz^2 + 2Dxy + 2Exz + 2Fyz = 1] at [p],
    the coefficients [A .. F] being [c0 v .. c5 v]. *)
Definition quadric (v : Vec6) (p : Vec3) : R :=
  c0 v * (vx p * vx p) + c1 v * (vy p * vy p) + c2 v * (vz p * vz p)
  + 2 * c3 v * (vx p * vy p) + 2 * c4 v * (vx p * vz p) + 2 * c5 v * (vy p * vz p).

(** The sum of squared residuals [|D w - b|^2] of a linear system. *)
Fixpoint residual_ss (D : list Vec6) (b : list R) (w : Vec6) : R :=
  match D, b with
  | row :: D', bi :: b' => (dot6 row w - bi) * (dot6 row w - bi) + residual_ss D' b' w
  | _, _ => 0
  end.

(** [v] is a least-squares solution of [D v = b]: what [lstsq] returns. *)
Definition least_squares (D : list Vec6) (b : list R) (v : Vec6) : Prop :=
  forall w, residual_ss D b v <= residual_ss D b w.

(** How far the samples are from the surface [quadric w = 1]. *)
Fixpoint fit_error (centered_data : list Vec3) (w : Vec6) : R :=
  match centered_data with
  | [] => 0
  | p :: rest => (quadric w p - 1) * (quadric w p - 1) + fit_error rest w
  end.

(** [(vals, vecs)] is an eigendecomposition of [m]: [vecs] is orthogonal and
    [m = vecs diag(vals) vecs^T]. *)
Definition eigendecomposition (m : Mat3) (e : Vec3 * Mat3) : Prop :=
  orthogonal (snd e)
  /\ m = matmul (matmul (snd e) (diag (fst e))) (transpose (snd e)).

Definition nonneg3 (v : Vec3) : Prop := 0 <= vx v /\ 0 <= vy v /\ 0 <= vz v.

(** The design matrix has full column rank: no non-zero coefficient vector
    is annihilated by every row. *)
Definition full_rank (D : list Vec6) : Prop :=
  forall w, (forall row, In row D -> dot6 row w = 0) -> w = zero6.

(** A backend for worked examples: it answers every system with the unit
    sphere's coefficients and every matrix with the identity's
    decomposition. *)
Definition sphere_lstsq (_ : list Vec6) (_ : list R) : Vec6 := V6 1 1 1 0 0 0.
Definition identity_eigh (_ : Mat3) : Vec3 * Mat3 := (V3 1 1 1, identity).

(** Fifty samples at two places. *)
Definition two_point_sweep : list Vec3 :=
  repeat (V3 1 2 3) 25 ++ repeat (V3 3 4 5) 25.

(** ** Sample sets for worked examples *)

(** Fifty-two samples of a sweep that stays in the plane [z = 0]. *)
Definition planar_sweep : list Vec3 :=
  concat (repeat [V3 1 0 0; V3 (-1) 0 0; V3 0 1 0; V3 0 (-1) 0] 13).

(** What [lstsq] and [eigh] answer on the planar sweep: the coefficients of
    least norm among the least-squares solutions, and the decomposition of
    [diag(1, 1, 0)] with the eigenvalues in ascending order. *)
Definition planar_lstsq (_ : list Vec6) (_ : list R) : Vec6 := V6 1 1 0 0 0 0.
Definition planar_eigh (_ : Mat3) : Vec3 * Mat3 :=
  (V3 0 1 1, M3 (V3 0 1 0) (V3 0 0 1) (V3 1 0 0)).

(** Fifty-four samples on the unit sphere: the six axis points and three
    points between the axes, six times over. *)
Definition sphere_sweep : list Vec3 :=
  concat (repeat [V3 1 0 0; V3 (-1) 0 0; V3 0 1 0; V3 0 (-1) 0; V3 0 0 1; V3 0 0 (-1);
                  V3 0.6 0.8 0; V3 0.6 0 0.8; V3 0 0.6 0.8] 6).

(** ** Live tracking *)

(** The raw readings among the lines, in order. *)
Fixpoint readings (lines : list SerialLine) : list Vec3 :=
  match lines with
  | [] => []
  | Reading raw_reading :: rest => raw_reading :: readings rest
  | _ :: rest => readings rest
  end.

(** The raw readings the tracking loop processes: those ahead of the first
    garbled line. *)
Fixpoint readings_before_garbled (lines : list SerialLine) : list Vec3 :=
  match lines with
  | [] => []
  | Reading raw_reading :: rest => raw_reading :: readings_before_garbled rest
  | Skipped :: rest => readings_before_garbled rest
  | Garbled :: _ => []
  end.

(** [(raw - offset) . transform], component by component: entry [j] is the
    sum over [i] of [(raw_i - offset_i) * transform[i][j]]. *)
Definition calibrated (raw offset : Vec3) (transform : Mat3) : Vec3 :=
  V3 ((vx raw - vx offset) * vx (row0 transform)
      + (vy raw - vy offset) * vx (row1 transform)
      + (vz raw - vz offset) * vx (row2 transform))
     ((vx raw - vx offset) * vy (row0 transform)
      + (vy raw - vy offset) * vy (row1 transform)
      + (vz raw - vz offset) * vy (row2 transform))
     ((vx raw - vx offset) * vz (row0 transform)
      + (vy raw - vy offset) * vz (row1 transform)
      + (vz raw - vz offset) * vz (row2 transform)).

(** The sum of one component over a list of vectors. *)
Fixpoint total (f : Vec3 -> R) (l : list Vec3) : R :=
  match l with
  | [] => 0
  | p :: rest => f p + total f rest
  end.

(** [m] is the mean of the vectors of [l], on every axis. *)
Definition is_mean (m : Vec3) (l : list Vec3) : Prop :=
  INR (length l) * vx m = total vx l
  /\ INR (length l) * vy m = total vy l
  /\ INR (length l) * vz m = total vz l.

(** ** Stage 1: collecting the samples *)

(** Lines 37-53, one line of the serial port: a well-formed line adds a row,
    an empty or short line adds nothing, and the [ValueError] or
    [UnicodeDecodeError] of a garbled line is caught ([continue]). *)
Definition collect_step (raw_data : list Vec3) (line : SerialLine) : list Vec3 :=
  match line with
  | Reading raw_reading => raw_data ++ [raw_reading]
  | Skipped | Garbled => raw_data
  end.

(** [collect_calibration_data()]: the rows of [np.array(raw_data)].  The
    argument is [None] when [serial.Serial] raises [SerialException] (the
    function returns [(None, None)]), else the lines read until the duration
    is over or the user interrupts. *)
Definition collect_calibration_data (port : option (list SerialLine))
  : option (list Vec3) :=
  match port with
  | None => None
  | Some lines => Some (fold_left collect_step lines [])
  end.

(** [int(r)] for a float: the fractional part is dropped, towards zero. *)
Definition py_int (r : R) : Z :=
  if Rle_dec 0 r then Int_part r else (- Int_part (- r))%Z.

(** [c * n] for a one-character string [c]: empty when [n] is not positive. *)
Definition str_repeat {A : Type} (c : A) (n : Z) : list A := repeat c (Z.to_nat n).

(** The two characters of the progress bar. *)
Inductive BarChar : Type := Hash | Blank.

(** Line 46: [progress = int((elapsed / duration_s) * 20)]. *)
Definition progress_of (elapsed duration_s : R) : Z :=
  py_int ((elapsed / duration_s) * 20).

(** Line 47, between the brackets: ['#' * progress] followed by
    [' ' * (20 - progress)]. *)
Definition progress_bar (progress : Z) : list BarChar :=
  str_repeat Hash progress ++ str_repeat Blank (20 - progress).

(** ** The calibration plot *)

(** [visualize_calibration(raw_data, offset, matrix)]: the points plotted in
    blue, [calibrated_data = (raw_data - offset) @ matrix].  [None]: computing
    them raises, [offset] and [matrix] being [None]. *)
Definition visualize_calibration (raw_data : list Vec3) (params : option (Vec3 * Mat3))
  : option (list Vec3) :=
  match params with
  | None => None
  | Some (offset, matrix) => Some (map (fun row => vecmat (vsub row offset) matrix) raw_data)
  end.

(** ** The main function *)

(** What [main()] meets on its way: the calibration file ([None] when
    [os.path.exists] is false), whether the answers to the two prompts are
    ['y'], and what the serial port gives each time it is opened ([None] when
    opening it raises [SerialException]; the device stays connected while
    lines are read). *)
Record MainInput : Type := mkInput {
  file_before : CalibrationFile;
  use_existing : bool;
  collection_port : option (list SerialLine);
  start_live : bool;
  tracking_port : option (list SerialLine * list SerialLine)
}.

(** How [main()] ends. *)
Inductive MainEnd : Type :=
  | NoParameters     (* "Could not obtain calibration parameters. Exiting." *)
  | PlotRaised       (* visualize_calibration raised on the parameters None, None *)
  | Declined         (* the answer to "Proceed to live tracking demo?" is not y *)
  | PortFailed       (* the port could not be opened for live tracking *)
  | Tracked (offset : Vec3) (matrix : Mat3)
            (outcome : option (list Vec3 * TrackingEnd)).

(** Lines 208-216. *)
Definition live_stage (i : MainInput) (offset : Vec3) (matrix : Mat3) : MainEnd :=
  if start_live i then
    match tracking_port i with
    | None => PortFailed
    | Some (capture_lines, tracking_lines) =>
        Tracked offset matrix (live_tracking_demo offset matrix capture_lines tracking_lines)
    end
  else Declined.

Section Main.

Variable lstsq : list Vec6 -> list R -> Vec6.
Variable eigh : Mat3 -> Vec3 * Mat3.

(** [main()]: how it ends, and the calibration file afterwards. *)
Definition main (i : MainInput) : MainEnd * CalibrationFile :=
  let loaded :=
    match file_before i with
    | Some params => if use_existing i then Some params else None
    | None => None
    end in
  match loaded with
  | Some (offset, matrix) => (live_stage i offset matrix, file_before i)
  | None =>
      match collect_calibration_data (collection_port i) with
      | None => (NoParameters, file_before i)
      | Some raw_data =>
          let '(params, file) :=
            calculate_and_save_calibration lstsq eigh (file_before i) (Some raw_data) in
          match visualize_calibration raw_data params with
          | None => (PlotRaised, file)
          | Some _ =>
              match params with
              | None => (NoParameters, file)
              | Some (offset, matrix) => (live_stage i offset matrix, file)
              end
          end
      end
  end.

End Main.

(** Every row moved by the same vector. *)
Definition shift (b : Vec3) (rows : list Vec3) : list Vec3 :=
  map (fun p => vadd p b) rows.

(** A port that delivers sixty well-formed lines among blank and garbled
    ones, and one that delivers three. *)
Definition sixty_line_port : list SerialLine :=
  Skipped :: Garbled :: map Reading (two_point_sweep ++ repeat (V3 2 3 4) 10).

Definition three_line_port : list SerialLine :=
  [Reading (V3 1 2 3); Garbled; Reading (V3 3 4 5); Skipped; Reading (V3 2 3 4)].

(** How the tracking loop ends on given lines: it raises at the first
    garbled line, and stops when the lines run out before one. *)
Fixpoint tracking_end (lines : list SerialLine) : TrackingEnd :=
  match lines with
  | [] => Stopped
  | Garbled :: _ => Raised
  | _ :: rest => tracking_end rest
  end.

(** ** The transform, entry by entry *)

(** Component [j] of a vector and entry [i][j] of a 3x3 array, counted from
    0 as numpy does. *)
Definition component (v : Vec3) (j : nat) : R :=
  match j with
  | 0%nat => vx v
  | 1%nat => vy v
  | _ => vz v
  end.

Definition entry (m : Mat3) (i j : nat) : R :=
  match i with
  | 0%nat => component (row0 m) j
  | 1%nat => component (row1 m) j
  | _ => component (row2 m) j
  end.

(** Entry [i][j] of [Q sqrt(L) Q^T]: the sum over [k] of
    [Q[i][k] * sqrt(L[k]) * Q[j][k]]. *)
Definition spectral_root_entry (vals : Vec3) (vecs : Mat3) (i j : nat) : R :=
  entry vecs i 0 * sqrt (vx vals) * entry vecs j 0
  + entry vecs i 1 * sqrt (vy vals) * entry vecs j 1
  + entry vecs i 2 * sqrt (vz vals) * entry vecs j 2.

(** The six terms of the ellipsoid equation for the sample [p] once the
    offset is taken away: [x^2, y^2, z^2, 2xy, 2xz, 2yz]. *)
Definition ellipsoid_terms (p offset : Vec3) : Vec6 :=
  let x := vx p - vx offset in
  let y := vy p - vy offset in
  let z := vz p - vz offset in
  V6 (x * x) (y * y) (z * z) (2 * x * y) (2 * x * z) (2 * y * z).

(** The symmetric matrix of the quadratic form with coefficients
    [A, B, C, D, E, F]. *)
Definition form_matrix (v : Vec6) : Mat3 :=
  M3 (V3 (c0 v) (c3 v) (c4 v)) (V3 (c3 v) (c1 v) (c5 v)) (V3 (c4 v) (c5 v) (c2 v)).

(** Fifty-four samples on the ellipsoid [x^2 + 4 y^2 + z^2 / 4 = 1] moved to
    the centre (1, 2, 3): the six axis points and three points between the
    axes, six times over. *)
Definition ellipsoid_sweep : list Vec3 :=
  concat (repeat [V3 2 2 3; V3 0 2 3; V3 1 2.5 3; V3 1 1.5 3; V3 1 2 5; V3 1 2 1;
                  V3 1.6 2.4 3; V3 1.6 2 4.6; V3 1 2.3 4.6] 6).

(** What [lstsq] and [eigh] answer on the ellipsoid sweep: the coefficients
    of the ellipsoid, and the decomposition of [diag(1, 4, 1/4)] with the
    eigenvalues in ascending order (eigenvectors along z, x and y). *)
Definition ellipsoid_lstsq (_ : list Vec6) (_ : list R) : Vec6 := V6 1 4 0.25 0 0 0.
Definition ellipsoid_eigh (_ : Mat3) : Vec3 * Mat3 :=
  (V3 0.25 1 4, M3 (V3 0 1 0) (V3 0 0 1) (V3 1 0 0)).

End Calibration.

(* ################################################################## *)
(** * Part II: what the programs guarantee *)
(* ################################################################## *)

(* ================================================================== *)
(** * Facts about [range] and slices *)
(* ================================================================== *)

Module PyFacts.

Import Py.

Local Open Scope Z_scope.

Lemma range_len_nonneg start stop step :
  0 < step -> 0 <= range_len start stop step.
Proof.
  intros Hs. unfold range_len.
  destruct (start <? stop) eqn:E; [|lia].
  apply Z.ltb_lt in E.
  assert (0 <= (stop - start - 1) / step) by (apply Z.div_pos; lia).
  lia.
Qed.

Lemma length_range start stop step :
  0 < step ->
  Z.of_nat (length (range start stop step)) = range_len start stop step.
Proof.
  intros Hs. unfold range.
  rewrite length_map, length_seq, Z2Nat.id; auto using range_len_nonneg.
Qed.

Lemma in_range start stop step i :
  0 < step ->
  In i (range start stop step) <->
  exists k, 0 <= k < range_len start stop step /\ i = start + k * step.
Proof.
  intros Hs. unfold range. rewrite in_map_iff. split.
  - intros (k & <- & Hk). apply in_seq in Hk. exists (Z.of_nat k). split; lia.
  - intros (k & Hk & ->). exists (Z.to_nat k). split.
    + rewrite Z2Nat.id; lia.
    + apply in_seq. lia.
Qed.

Lemma length_slice {A : Type} (l : list A) i j :
  0 <= i -> i <= j -> j <= Z.of_nat (length l) ->
  Z.of_nat (length (slice l i j)) = j - i.
Proof.
  intros Hi Hij Hj. unfold slice.
  rewrite length_firstn, length_skipn. lia.
Qed.

Lemma nth_error_slice {A : Type} (l : list A) i j (k : nat) :
  0 <= i -> Z.of_nat k < j - i ->
  nth_error (slice l i j) k = nth_error l (Z.to_nat i + k).
Proof.
  intros Hi Hk. unfold slice.
  rewrite nth_error_firstn.
  assert ((k <? Z.to_nat (j - i))%nat = true) as -> by (apply Nat.ltb_lt; lia).
  now rewrite nth_error_skipn.
Qed.

End PyFacts.

(* ================================================================== *)
(** * Facts about arrays *)
(* ================================================================== *)

Module NpFacts.

Import Np.

Local Open Scope R_scope.

Lemma vec3_eq a b : vx a = vx b -> vy a = vy b -> vz a = vz b -> a = b.
Proof. destruct a, b; simpl; intros; subst; reflexivity. Qed.

Lemma mat3_eq a b : row0 a = row0 b -> row1 a = row1 b -> row2 a = row2 b -> a = b.
Proof. destruct a, b; simpl; intros; subst; reflexivity. Qed.

Lemma np_sum_from (l : list R) (a : R) : fold_left Rplus l a = a + np_sum l.
Proof.
  unfold np_sum. revert a.
  induction l as [|h t IH]; intros a; simpl.
  - lra.
  - rewrite (IH (a + h)), (IH (0 + h)). lra.
Qed.

Lemma np_sum_cons (h : R) (t : list R) : np_sum (h :: t) = h + np_sum t.
Proof. unfold np_sum at 1. simpl. rewrite np_sum_from. lra. Qed.

End NpFacts.

(* ================================================================== *)
(** * magnet_simulation.py: the tracking loop and the features *)
(* ================================================================== *)

Module SimulationFacts.

Import Np NpFacts Simulation.

(** *** The loop over measurements *)

Section SolverFacts.

Variable getB : Vec3 -> Vec3.
Variable minimize : (Vec3 -> R) -> Vec3 -> nat -> OptimizeResult.

Lemma fold_solve_step (noisy_B : list Vec3) (st : TrackState) :
  estimated_positions (fold_left (solve_step getB minimize) noisy_B st)
  = estimated_positions st ++ chained_estimates getB minimize (last_guess st) noisy_B.
Proof.
  revert st. induction noisy_B as [|B rest IH]; intros st; simpl.
  - now rewrite app_nil_r.
  - rewrite IH. simpl. now rewrite <- app_assoc.
Qed.

Lemma track_chained (noisy_B : list Vec3) :
  estimated_positions (track getB minimize noisy_B)
  = chained_estimates getB minimize initial_guess noisy_B.
Proof. unfold track. now rewrite fold_solve_step. Qed.

Lemma length_chained (seed : Vec3) (noisy_B : list Vec3) :
  length (chained_estimates getB minimize seed noisy_B) = length noisy_B.
Proof.
  revert seed. induction noisy_B as [|B rest IH]; intros seed; simpl; auto.
Qed.

Lemma chained_succ (noisy_B : list Vec3) (seed : Vec3) (k : nat) (B_meas prev : Vec3) :
  nth_error noisy_B (S k) = Some B_meas ->
  nth_error (chained_estimates getB minimize seed noisy_B) k = Some prev ->
  nth_error (chained_estimates getB minimize seed noisy_B) (S k)
  = Some (x (minimize (fun pos => objective getB pos B_meas) prev maxiter)).
Proof.
  revert seed k. induction noisy_B as [|B0 rest IH]; intros seed k HB Hp.
  - discriminate.
  - destruct k as [|k]; simpl in *.
    + destruct rest as [|B1 rest']; [discriminate|].
      simpl in HB, Hp. injection HB as <-. injection Hp as <-. reflexivity.
    + now apply IH.
Qed.

End SolverFacts.

(** *** The window loop *)

Section WindowFacts.

Local Open Scope Z_scope.

Variables n w : Z.
Hypothesis w_pos : 0 < w.

(** The windows end within [w] samples of the end of the series, and
    before it. *)
Lemma covered_bounds : 0 < n -> n - w <= covered n w <= n - 1.
Proof using w_pos.
  intros Hn. unfold covered, Py.range_len.
  destruct (0 <? n - w) eqn:E.
  - apply Z.ltb_lt in E.
    pose proof (Z.div_mod (n - w - 0 - 1) w ltac:(lia)) as Hdm.
    pose proof (Z.mod_pos_bound (n - w - 0 - 1) w w_pos) as Hm.
    nia.
  - apply Z.ltb_ge in E. lia.
Qed.

Lemma in_window_starts (i : Z) :
  In i (window_starts n w) <-> 0 <= i < n - w /\ (w | i).
Proof using w_pos.
  unfold window_starts. rewrite PyFacts.in_range by assumption.
  unfold Py.range_len. split.
  - intros (k & Hk & ->).
    destruct (0 <? n - w) eqn:E; [|lia].
    apply Z.ltb_lt in E.
    pose proof (Z.div_mod (n - w - 0 - 1) w ltac:(lia)) as Hdm.
    pose proof (Z.mod_pos_bound (n - w - 0 - 1) w w_pos) as Hm.
    split; [nia|]. exists k. lia.
  - intros (Hi & c & ->).
    exists c. split; [|lia].
    assert (E : (0 <? n - w) = true) by (apply Z.ltb_lt; lia).
    rewrite E.
    assert (c <= (n - w - 0 - 1) / w) by (apply Z.div_le_lower_bound; nia).
    nia.
Qed.

Lemma in_some_window_iff (j : Z) :
  0 <= j -> in_some_window n w j <-> j < covered n w.
Proof using w_pos.
  intros Hj. unfold in_some_window, covered, window_starts. split.
  - intros (i & Hi & Hij).
    apply PyFacts.in_range in Hi; [|assumption].
    destruct Hi as (k & Hk & ->). nia.
  - intros Hlt.
    pose proof (Z.div_mod j w ltac:(lia)) as Hdm.
    pose proof (Z.mod_pos_bound j w w_pos) as Hm.
    exists (j / w * w). split; [|nia].
    apply PyFacts.in_range; [assumption|].
    exists (j / w). split; [|lia].
    split; [apply Z.div_pos; lia|].
    apply Z.div_lt_upper_bound; nia.
Qed.

Lemma windows_disjoint (i i' : Z) :
  In i (window_starts n w) -> In i' (window_starts n w) -> i <> i' ->
  i + w <= i' \/ i' + w <= i.
Proof using w_pos.
  intros Hi Hi' Hne.
  apply in_window_starts in Hi. apply in_window_starts in Hi'.
  destruct Hi as (_ & c & ->). destruct Hi' as (_ & c' & ->).
  assert (c <> c') by congruence. nia.
Qed.

End WindowFacts.

Lemma length_feature_window (w : Z) (noisy_B window_B : list Vec3) :
  (0 < w)%Z ->
  In window_B (feature_windows w noisy_B) ->
  Z.of_nat (length window_B) = w.
Proof.
  intros Hw Hin. unfold feature_windows in Hin.
  apply in_map_iff in Hin. destruct Hin as (i & <- & Hi).
  apply in_window_starts in Hi; [|assumption].
  rewrite PyFacts.length_slice; lia.
Qed.

(** Window number [i / w] holds samples [i .. i + w - 1] of the series. *)
Lemma feature_window_samples (w i : Z) (noisy_B : list Vec3) (k : nat) :
  (0 < w)%Z ->
  In i (window_starts (Z.of_nat (length noisy_B)) w) ->
  (Z.of_nat k < w)%Z ->
  nth_error (Py.slice noisy_B i (i + w)) k = nth_error noisy_B (Z.to_nat i + k).
Proof.
  intros Hw Hi Hk. apply in_window_starts in Hi; [|assumption].
  apply PyFacts.nth_error_slice; lia.
Qed.

Example window_starts_100 : window_starts 100 50 = [0]%Z.
Proof. reflexivity. Qed.

Example window_starts_101 : window_starts 101 50 = [0; 50]%Z.
Proof. reflexivity. Qed.

Example window_starts_short_series : window_starts 30 50 = [].
Proof. reflexivity. Qed.

(** *** The spectral power of a window *)

Lemma masked_sum_is_band_power (freq psd : list R) :
  np_sum (bool_index psd (band_mask freq)) = band_power 1 2 freq psd.
Proof.
  revert psd. induction freq as [|f freq IH]; intros psd.
  - destruct psd; reflexivity.
  - destruct psd as [|p psd]; [reflexivity|].
    specialize (IH psd). unfold bool_index in *. simpl.
    unfold geb, leb.
    destruct (Rle_dec 1 f), (Rle_dec f 2); simpl;
      rewrite ?np_sum_cons, IH; lra.
Qed.

(** *** The claims about the simulation *)

(** C3.  In a tracking run there is one estimate per measurement; the first
    solve is seeded with the default guess (0, 0, 0.01), and solve number
    k+1 is seeded with the estimate that solve number k returned. *)
Theorem warm_start_chain
    (getB : Vec3 -> Vec3) (minimize : (Vec3 -> R) -> Vec3 -> nat -> OptimizeResult)
    (noisy_B : list Vec3) :
  let est := estimated_positions (track getB minimize noisy_B) in
  length est = length noisy_B
  /\ (forall B0, nth_error noisy_B 0 = Some B0 ->
        nth_error est 0
        = Some (x (minimize (fun pos => objective getB pos B0) (V3 0 0 0.01) 2000%nat)))
  /\ (forall k Bk prev,
        nth_error noisy_B (S k) = Some Bk ->
        nth_error est k = Some prev ->
        nth_error est (S k)
        = Some (x (minimize (fun pos => objective getB pos Bk) prev 2000%nat))).
Proof.
  intros est. subst est. rewrite track_chained.
  split; [apply length_chained|]. split.
  - intros B0 HB. destruct noisy_B as [|B rest]; [discriminate|].
    simpl in HB. injection HB as ->. reflexivity.
  - intros k Bk prev HB Hprev. now apply chained_succ.
Qed.

(** A run of three measurements with a minimiser that steps from the seed
    by the measured vector: each estimate builds on the one before. *)
Lemma warm_start_chain_witness :
  let getB := fun pos : Vec3 => pos in
  let minimize := fun (_ : Vec3 -> R) (x0 : Vec3) (_ : nat) =>
                    mkResult (vadd x0 (V3 1 0 0)) true 1 in
  let noisy_B := [vzero; vzero; vzero] in
  nth_error noisy_B 2 = Some vzero
  /\ nth_error (estimated_positions (track getB minimize noisy_B)) 1
     = Some (vadd (vadd initial_guess (V3 1 0 0)) (V3 1 0 0))
  /\ nth_error (estimated_positions (track getB minimize noisy_B)) 2
     = Some (vadd (vadd (vadd initial_guess (V3 1 0 0)) (V3 1 0 0)) (V3 1 0 0)).
Proof.
  intros getB minimize noisy_B.
  split; [reflexivity|]. split; [reflexivity|].
  exact (proj2 (proj2 (warm_start_chain getB minimize noisy_B))
           1%nat vzero _ eq_refl eq_refl).
Defined.

(** C10.  For a series of [n >= 1] samples and windows of [w >= 1], the loop's
    start indices are exactly the multiples of [w] strictly below [n - w];
    windows with different starts do not overlap; and the samples outside
    every window are the last [trailing] ones, with [1 <= trailing <= w], and
    [trailing = w] when [w] divides [n]. *)
Theorem trailing_samples_outside_every_window (n w : Z) :
  (0 < w)%Z -> (0 < n)%Z ->
  let trailing := (n - covered n w)%Z in
  (forall i, In i (window_starts n w) <-> (0 <= i < n - w)%Z /\ (w | i)%Z)
  /\ (forall i i', In i (window_starts n w) -> In i' (window_starts n w) ->
        i <> i' -> (i + w <= i')%Z \/ (i' + w <= i)%Z)
  /\ (forall j, (0 <= j < n)%Z -> in_some_window n w j <-> (j < n - trailing)%Z)
  /\ (1 <= trailing <= w)%Z
  /\ ((w | n)%Z -> trailing = w).
Proof.
  intros Hw Hn trailing.
  pose proof (covered_bounds Hw Hn) as Hc.
  split; [intros i; now apply in_window_starts|].
  split; [intros i i'; now apply windows_disjoint|].
  split.
  - intros j Hj. rewrite in_some_window_iff by lia. subst trailing. lia.
  - subst trailing. split; [lia|].
    intros (c & ->). unfold covered in *.
    set (q := Py.range_len 0 (c * w - w) w) in *.
    assert (q = c - 1)%Z by nia. nia.
Qed.

(** The script's own sizes: 750 samples in windows of 50.  The starts are
    0, 50, ..., 650, and samples 700 to 749 lie in no window. *)
Lemma trailing_samples_750_50 :
  ((0 < 50)%Z /\ (0 < 750)%Z)
  /\ window_starts len_t window_size
     = [0; 50; 100; 150; 200; 250; 300; 350; 400; 450; 500; 550; 600; 650]%Z
  /\ (forall j, (0 <= j < 750)%Z -> in_some_window 750 50 j <-> (j < 700)%Z).
Proof.
  split; [lia|]. split; [reflexivity|].
  exact (proj1 (proj2 (proj2
           (trailing_samples_outside_every_window (n := 750) (w := 50)
              eq_refl eq_refl)))).
Defined.

(** C9.  For every window of the feature loop, the spectral-power feature is
    the sum of the Welch density estimate of the window's first field
    component, taken with a segment length equal to the window's length, over
    the frequencies between 1 Hz and 2 Hz, times the fixed factor 1e12. *)
Theorem spectral_power_is_band_sum
    (welch : list R -> R -> Z -> list R * list R)
    (noisy_B window_B : list Vec3) :
  In window_B (feature_windows window_size noisy_B) ->
  let '(freq, psd) := welch (map vx window_B) 50%R (Z.of_nat (length window_B)) in
  spectral_power welch window_B = (band_power 1 2 freq psd * 1e12)%R.
Proof.
  intros Hin.
  rewrite (length_feature_window (w := window_size) noisy_B window_B eq_refl Hin).
  unfold spectral_power.
  destruct (welch (map vx window_B) 50%R window_size) as [freq psd].
  now rewrite masked_sum_is_band_power.
Qed.

(** A series of 51 samples has one window, its first 50 samples; the feature
    adds the densities at 1 Hz and 2 Hz. *)
Lemma spectral_power_is_band_sum_witness :
  let noisy_B := repeat (V3 1 2 3) 51 in
  let window_B := repeat (V3 1 2 3) 50 in
  In window_B (feature_windows window_size noisy_B)
  /\ spectral_power four_bin_welch window_B
     = (band_power 1 2 [0; 1; 2; 3] [5; 6; 7; 8] * 1e12)%R.
Proof.
  intros noisy_B window_B.
  assert (H : In window_B (feature_windows window_size noisy_B)) by (left; reflexivity).
  split; [exact H|].
  exact (spectral_power_is_band_sum four_bin_welch noisy_B window_B H).
Defined.

Example band_power_four_bins :
  band_power 1 2 [0; 1; 2; 3]%R [5; 6; 7; 8]%R = 13%R.
Proof.
  simpl.
  repeat match goal with
         | |- context [Rle_dec ?a ?b] => destruct (Rle_dec a b); try lra
         end.
Qed.

(** On a grid of frequencies one hertz apart from 0 (what a sampling rate of
    50 Hz and segments of 50 samples give), the band from 1 Hz to 2 Hz is
    the second and the third bin. *)
Lemma band_power_one_hertz_grid (f3 p0 p1 p2 : R) (freq psd : list R) :
  (2 < f3)%R ->
  (forall f, In f freq -> 2 < f)%R ->
  band_power 1 2 (0 :: 1 :: 2 :: f3 :: freq)%R (p0 :: p1 :: p2 :: psd) = (p1 + p2)%R.
Proof.
  intros H3 Hrest.
  assert (Htail : forall fs ps, (forall f, In f fs -> 2 < f)%R -> band_power 1 2 fs ps = 0%R).
  { induction fs as [|f fs IH]; intros ps Hfs; [now destruct ps|].
    destruct ps as [|p ps]; [reflexivity|]. simpl.
    rewrite IH by (intros g Hg; apply Hfs; now right).
    pose proof (Hfs f (or_introl eq_refl)).
    destruct (Rle_dec 1 f), (Rle_dec f 2); lra. }
  change (band_power 1 2 (0 :: 1 :: 2 :: f3 :: freq) (p0 :: p1 :: p2 :: psd))%R
    with ((if Rle_dec 1 0 then if Rle_dec 0 2 then p0 else 0 else 0)
          + ((if Rle_dec 1 1 then if Rle_dec 1 2 then p1 else 0 else 0)
             + ((if Rle_dec 1 2 then if Rle_dec 2 2 then p2 else 0 else 0)
                + band_power 1 2 (f3 :: freq) psd)))%R.
  rewrite (Htail (f3 :: freq) psd) by (intros f [<-|Hf]; auto).
  destruct (Rle_dec 1 0), (Rle_dec 0 2), (Rle_dec 1 1), (Rle_dec 1 2), (Rle_dec 2 2); lra.
Qed.

(** *** What the loop keeps of a solve *)

Lemma fold_solve_step_ext
    (getB : Vec3 -> Vec3) (m1 m2 : (Vec3 -> R) -> Vec3 -> nat -> OptimizeResult)
    (noisy_B : list Vec3) (st : TrackState) :
  (forall f x0, x (m1 f x0 2000%nat) = x (m2 f x0 2000%nat)) ->
  fold_left (solve_step getB m1) noisy_B st = fold_left (solve_step getB m2) noisy_B st.
Proof.
  intros Hx. revert st. induction noisy_B as [|B rest IH]; intros st; simpl.
  - reflexivity.
  - rewrite IH. f_equal. unfold solve_step, maxiter. now rewrite Hx.
Qed.

Lemma fold_solve_step_last
    (getB : Vec3 -> Vec3) (minimize : (Vec3 -> R) -> Vec3 -> nat -> OptimizeResult)
    (noisy_B : list Vec3) (st : TrackState) :
  last_guess st = last (estimated_positions st) initial_guess ->
  let st' := fold_left (solve_step getB minimize) noisy_B st in
  last_guess st' = last (estimated_positions st') initial_guess.
Proof.
  revert st. induction noisy_B as [|B rest IH]; intros st Hst; simpl.
  - exact Hst.
  - apply IH. simpl. now rewrite last_last.
Qed.

(** X17.  The loop keeps the point of each solve and nothing else: two
    minimisers that return the same points under the budget of 2000 iterations
    give the same estimates and the same final seed, whatever they report
    about convergence or iterations.  After the loop the seed is the last
    estimate (the initial guess if there was no measurement). *)
Theorem track_keeps_positions_only
    (getB : Vec3 -> Vec3) (m1 m2 : (Vec3 -> R) -> Vec3 -> nat -> OptimizeResult)
    (noisy_B : list Vec3) :
  (forall f x0, x (m1 f x0 2000%nat) = x (m2 f x0 2000%nat)) ->
  track getB m1 noisy_B = track getB m2 noisy_B
  /\ last_guess (track getB m1 noisy_B)
     = last (estimated_positions (track getB m1 noisy_B)) initial_guess.
Proof.
  intros Hx. unfold track. split.
  - now apply fold_solve_step_ext.
  - now apply fold_solve_step_last.
Qed.

(** A run in which every solve converges and a run in which none does leave
    the same state. *)
Lemma track_keeps_positions_only_witness :
  success (converging_minimize (fun _ => 0%R) initial_guess 2000) = true
  /\ success (stalling_minimize (fun _ => 0%R) initial_guess 2000) = false
  /\ track (fun pos => pos) converging_minimize [vzero; V3 1 0 0]
     = track (fun pos => pos) stalling_minimize [vzero; V3 1 0 0].
Proof.
  split; [reflexivity|]. split; [reflexivity|].
  apply (@track_keeps_positions_only (fun pos => pos) converging_minimize stalling_minimize
           [vzero; V3 1 0 0]).
  intros f x0. reflexivity.
Defined.

(** *** The jaw motion *)

Local Open Scope R_scope.

Lemma lateral_circle (r a : R) :
  (r * sin a) * (r * sin a) + (r * cos a) * (r * cos a) = r * r.
Proof.
  pose proof (sin2_cos2 a) as H. unfold Rsqr in H.
  replace (r * sin a * (r * sin a) + r * cos a * (r * cos a))
    with (r * r * (sin a * sin a + cos a * cos a)) by ring.
  rewrite H. ring.
Qed.

(** X10.  The simulated magnet moves on a lateral circle around the sensor
    axis whose radius depends on the phase alone (2 mm before 5 s, 5 mm before
    10 s, 1 mm from then on), its height stays within 8-12 mm, 6-10 mm and
    4-6 mm in the three phases, and so it is never lower than 4 mm above the
    sensor: no sample puts the magnet at the sensor. *)
Theorem motion_envelope (ti : R) :
  let p := true_position ti in
  (ti < 5 ->
     vx p * vx p + vy p * vy p = 0.002 * 0.002 /\ 0.008 <= vz p <= 0.012)
  /\ (5 <= ti < 10 ->
        vx p * vx p + vy p * vy p = 0.005 * 0.005 /\ 0.006 <= vz p <= 0.010)
  /\ (10 <= ti ->
        vx p * vx p + vy p * vy p = 0.001 * 0.001 /\ 0.004 <= vz p <= 0.006)
  /\ 0.004 <= vz p <= 0.012
  /\ vx p * vx p + vy p * vy p <= 0.005 * 0.005
  /\ p <> sensor_pos.
Proof.
  intros p. subst p. unfold true_position.
  pose proof (SIN_bound (0.5 * ti)) as S1.
  pose proof (SIN_bound (2 * PI * ti)) as S2.
  destruct (Rlt_dec ti 5) as [H5|H5]; [|destruct (Rlt_dec ti 10) as [H10|H10]];
    simpl; rewrite lateral_circle;
    (repeat split; try lra; try (intros E; apply (f_equal vz) in E; simpl in E; lra)).
Qed.

Local Close Scope R_scope.

(** *** The objective of a solve *)

Local Open Scope R_scope.

Lemma three_squares_zero (u v w : R) :
  u * u + v * v + w * w = 0 -> u = 0 /\ v = 0 /\ w = 0.
Proof.
  intros H.
  pose proof (Rle_0_sqr u) as Hu. pose proof (Rle_0_sqr v) as Hv.
  pose proof (Rle_0_sqr w) as Hw. unfold Rsqr in *.
  assert (u * u = 0) as Eu by lra. assert (v * v = 0) as Ev by lra.
  assert (w * w = 0) as Ew by lra.
  apply Rmult_integral in Eu, Ev, Ew. repeat split; tauto.
Qed.

(** X11.  The objective is never negative and is zero exactly when the
    field predicted at the position equals the measured field; with a forward
    model that tells positions apart, a position with objective zero on the
    noiseless field of a true position is that position. *)
Theorem objective_vanishes_on_exact_match
    (getB : Vec3 -> Vec3) (pos measured_B : Vec3) :
  0 <= objective getB pos measured_B
  /\ (objective getB pos measured_B = 0 <-> getB pos = measured_B)
  /\ forall truth,
       (forall p q, getB p = getB q -> p = q) ->
       objective getB pos (getB truth) = 0 -> pos = truth.
Proof.
  assert (Hzero : forall m, objective getB pos m = 0 <-> getB pos = m).
  { intros m. unfold objective, np_sum. simpl.
    destruct (getB pos) as [a b c], m as [a' b' c']. simpl. split.
    - intros H.
      destruct (@three_squares_zero (a - a') (b - b') (c - c')) as (Ha & Hb & Hc); [lra|].
      f_equal; lra.
    - intros E. injection E as -> -> ->. ring. }
  split; [|split].
  - unfold objective, np_sum. simpl.
    destruct (getB pos) as [a b c], measured_B as [a' b' c']. simpl.
    pose proof (Rle_0_sqr (a - a')). pose proof (Rle_0_sqr (b - b')).
    pose proof (Rle_0_sqr (c - c')). unfold Rsqr in *. lra.
  - apply Hzero.
  - intros truth Hinj H0. apply Hinj. now apply Hzero.
Qed.

(** *** Mean and variance over a window *)

Lemma np_sum_shift (c : R) (l : list R) :
  np_sum (map (fun a => a + c) l) = np_sum l + c * INR (length l).
Proof.
  induction l as [|h rest IH].
  - simpl. unfold np_sum. simpl. ring.
  - cbn [map length]. rewrite !np_sum_cons, IH, S_INR. ring.
Qed.

Lemma np_sum_bounds (lo hi : R) (l : list R) :
  (forall a, In a l -> lo <= a <= hi) ->
  lo * INR (length l) <= np_sum l <= hi * INR (length l).
Proof.
  induction l as [|h rest IH]; intros Hall.
  - unfold np_sum. simpl. lra.
  - cbn [length]. rewrite np_sum_cons, S_INR.
    pose proof (Hall h (or_introl eq_refl)).
    assert (lo * INR (length rest) <= np_sum rest <= hi * INR (length rest))
      by (apply IH; intros a Ha; apply Hall; now right).
    lra.
Qed.

Lemma np_sum_nonneg (l : list R) : (forall a, In a l -> 0 <= a) -> 0 <= np_sum l.
Proof.
  induction l as [|h rest IH]; intros Hpos.
  - unfold np_sum. simpl. lra.
  - rewrite np_sum_cons.
    pose proof (Hpos h (or_introl eq_refl)).
    assert (0 <= np_sum rest) by (apply IH; intros a Ha; apply Hpos; now right).
    lra.
Qed.

Lemma np_sum_zero (l : list R) :
  (forall a, In a l -> 0 <= a) -> np_sum l = 0 -> forall a, In a l -> a = 0.
Proof.
  induction l as [|h rest IH]; intros Hpos Hsum a Ha; [destruct Ha|].
  rewrite np_sum_cons in Hsum.
  pose proof (Hpos h (or_introl eq_refl)) as Hh.
  assert (Hrest : forall b, In b rest -> 0 <= b) by (intros b Hb; apply Hpos; now right).
  pose proof (@np_sum_nonneg rest Hrest).
  destruct Ha as [<-|Ha]; [lra|].
  apply IH; [assumption|lra|assumption].
Qed.

Lemma length_pos_INR {A : Type} (l : list A) : l <> [] -> 0 < INR (length l).
Proof. intros Hne. apply lt_0_INR. destruct l; [congruence|simpl; lia]. Qed.

Lemma np_mean_shift (c : R) (l : list R) :
  l <> [] -> np_mean (map (fun a => a + c) l) = np_mean l + c.
Proof.
  intros Hne. pose proof (length_pos_INR Hne).
  unfold np_mean. rewrite np_sum_shift, length_map. field. lra.
Qed.

Lemma np_mean_bounds (lo hi : R) (l : list R) :
  l <> [] -> (forall a, In a l -> lo <= a <= hi) -> lo <= np_mean l <= hi.
Proof.
  intros Hne Hall. pose proof (length_pos_INR Hne) as Hn.
  pose proof (@np_sum_bounds lo hi l Hall) as [Hlo Hhi].
  unfold np_mean.
  assert (E : np_sum l = np_sum l / INR (length l) * INR (length l)) by (field; lra).
  split; apply Rmult_le_reg_r with (INR (length l)); try assumption; lra.
Qed.

Lemma np_var_shift (c : R) (l : list R) :
  l <> [] -> np_var (map (fun a => a + c) l) = np_var l.
Proof.
  intros Hne. unfold np_var. rewrite np_mean_shift by assumption.
  rewrite map_map. f_equal. apply map_ext. intros a. ring.
Qed.

Lemma squared_deviations_nonneg (m : R) (l : list R) (a : R) :
  In a (map (fun b => (b - m) * (b - m)) l) -> 0 <= a.
Proof.
  intros Ha. apply in_map_iff in Ha. destruct Ha as (b & <- & _).
  pose proof (Rle_0_sqr (b - m)) as H. unfold Rsqr in H. exact H.
Qed.

Lemma np_var_nonneg (l : list R) : l <> [] -> 0 <= np_var l.
Proof.
  intros Hne. pose proof (length_pos_INR Hne) as Hn.
  unfold np_var, np_mean at 1. rewrite length_map.
  pose proof (@np_sum_nonneg _ (@squared_deviations_nonneg (np_mean l) l)) as Hs.
  apply Rmult_le_pos; [assumption|]. left. now apply Rinv_0_lt_compat.
Qed.

(** The variance is zero exactly when all values are the same. *)
Lemma np_var_zero (l : list R) :
  l <> [] -> (np_var l = 0 <-> forall a b, In a l -> In b l -> a = b).
Proof.
  intros Hne. pose proof (length_pos_INR Hne) as Hn. split.
  - intros H0.
    assert (Hs : np_sum (map (fun b => (b - np_mean l) * (b - np_mean l)) l) = 0).
    { unfold np_var, np_mean at 1 in H0. rewrite length_map in H0.
      apply Rmult_integral in H0. destruct H0 as [H0|H0]; [exact H0|].
      pose proof (Rinv_0_lt_compat _ Hn). lra. }
    assert (Hall : forall a, In a l -> a = np_mean l).
    { intros a Ha.
      pose proof (@np_sum_zero _ (@squared_deviations_nonneg (np_mean l) l) Hs
                    ((a - np_mean l) * (a - np_mean l))) as Hz.
      assert ((a - np_mean l) * (a - np_mean l) = 0) as E.
      { apply Hz. apply in_map_iff. now exists a. }
      apply Rmult_integral in E. lra. }
    intros a b Ha Hb. rewrite (Hall a Ha), (Hall b Hb). reflexivity.
  - intros Hsame.
    destruct l as [|c rest]; [congruence|].
    assert (Hc : forall a, In a (c :: rest) -> a = c)
      by (intros a Ha; apply Hsame; [assumption|now left]).
    assert (Hm : np_mean (c :: rest) = c).
    { apply Rle_antisym; apply (@np_mean_bounds c c (c :: rest)); try assumption;
        intros a Ha; rewrite (Hc a Ha); lra. }
    unfold np_var. rewrite Hm.
    apply Rle_antisym.
    + apply (@np_mean_bounds 0 0).
      * discriminate.
      * intros a Ha. apply in_map_iff in Ha. destruct Ha as (b & <- & Hb).
        rewrite (Hc b Hb). lra.
    + apply (@np_mean_bounds 0 0).
      * discriminate.
      * intros a Ha. apply in_map_iff in Ha. destruct Ha as (b & <- & Hb).
        rewrite (Hc b Hb). lra.
Qed.

Local Close Scope R_scope.

Local Open Scope R_scope.

Lemma column_of_biased (f : Vec3 -> R) (b : Vec3) (window_B : list Vec3) :
  (forall p, f (vadd p b) = f p + f b) ->
  map f (biased b window_B) = map (fun a => a + f b) (map f window_B).
Proof. intros Hf. unfold biased. rewrite !map_map. apply map_ext. intros p. apply Hf. Qed.

(** X12.  A static bias on the field does not change the lateral-variance
    feature: adding the same vector to every sample of a window leaves it as
    it is. *)
Theorem lateral_variance_ignores_a_static_bias (b : Vec3) (window_B : list Vec3) :
  window_B <> [] ->
  lateral_variance (biased b window_B) = lateral_variance window_B.
Proof.
  intros Hne.
  assert (Hcol : forall f : Vec3 -> R, map f window_B <> []).
  { intros f E. apply map_eq_nil in E. contradiction. }
  unfold lateral_variance.
  rewrite (column_of_biased vx), (column_of_biased vy) by reflexivity.
  now rewrite !np_var_shift by apply Hcol.
Qed.

Lemma lateral_variance_ignores_a_static_bias_witness :
  [V3 1 2 3; V3 2 4 6] <> []
  /\ lateral_variance (biased (V3 10 20 30) [V3 1 2 3; V3 2 4 6])
     = lateral_variance [V3 1 2 3; V3 2 4 6].
Proof.
  assert (H : [V3 1 2 3; V3 2 4 6] <> []) by discriminate.
  split; [exact H|].
  exact (@lateral_variance_ignores_a_static_bias (V3 10 20 30) [V3 1 2 3; V3 2 4 6] H).
Defined.

(** X13.  The lateral-variance feature of a window is never negative, and
    it is zero exactly when the two lateral field components are the same in
    every sample of the window. *)
Theorem lateral_variance_zero_when_still (window_B : list Vec3) :
  window_B <> [] ->
  0 <= lateral_variance window_B
  /\ (lateral_variance window_B = 0 <->
      forall p q, In p window_B -> In q window_B -> vx p = vx q /\ vy p = vy q).
Proof.
  intros Hne.
  assert (Hcol : forall f : Vec3 -> R, map f window_B <> []).
  { intros f E. apply map_eq_nil in E. contradiction. }
  pose proof (np_var_nonneg (Hcol vx)) as Hx.
  pose proof (np_var_nonneg (Hcol vy)) as Hy.
  unfold lateral_variance. split; [lra|]. split.
  - intros H0.
    assert (np_var (map vx window_B) = 0) as Ex by lra.
    assert (np_var (map vy window_B) = 0) as Ey by lra.
    pose proof (proj1 (np_var_zero (Hcol vx)) Ex) as Sx.
    pose proof (proj1 (np_var_zero (Hcol vy)) Ey) as Sy.
    intros p q Hp Hq. split; [apply Sx|apply Sy]; now apply in_map.
  - intros Hsame.
    assert (np_var (map vx window_B) = 0) as ->.
    { apply (proj2 (np_var_zero (Hcol vx))). intros a c Ha Hc.
      apply in_map_iff in Ha, Hc. destruct Ha as (p & <- & Hp), Hc as (q & <- & Hq).
      now apply Hsame. }
    assert (np_var (map vy window_B) = 0) as ->.
    { apply (proj2 (np_var_zero (Hcol vy))). intros a c Ha Hc.
      apply in_map_iff in Ha, Hc. destruct Ha as (p & <- & Hp), Hc as (q & <- & Hq).
      now apply Hsame. }
    lra.
Qed.

Lemma lateral_variance_zero_when_still_witness :
  [V3 1 2 3; V3 1 2 9] <> []
  /\ lateral_variance [V3 1 2 3; V3 1 2 9] = 0.
Proof.
  assert (H : [V3 1 2 3; V3 1 2 9] <> []) by discriminate.
  split; [exact H|].
  apply (proj2 (@lateral_variance_zero_when_still [V3 1 2 3; V3 1 2 9] H)).
  intros p q [<-|[<-|[]]] [<-|[<-|[]]]; split; reflexivity.
Defined.

(** X14.  The field-magnitude feature is the mean length of the window's
    field vectors in microtesla: it lies between 1e6 times the least and 1e6
    times the greatest length in the window. *)
Theorem field_magnitude_between_extremes (lo hi : R) (window_B : list Vec3) :
  window_B <> [] ->
  (forall b, In b window_B ->
     lo <= sqrt (vx b * vx b + vy b * vy b + vz b * vz b) <= hi) ->
  lo * 1e6 <= field_magnitude window_B <= hi * 1e6.
Proof.
  intros Hne Hall. unfold field_magnitude.
  apply np_mean_bounds.
  - intros E. apply map_eq_nil in E. contradiction.
  - intros a Ha. apply in_map_iff in Ha. destruct Ha as (b & <- & Hb).
    specialize (Hall b Hb). unfold np_sqrt, np_sum. simpl.
    replace (0 + vx b * vx b + vy b * vy b + vz b * vz b)
      with (vx b * vx b + vy b * vy b + vz b * vz b) by ring.
    lra.
Qed.

(** Two field vectors of length 5 T: the feature is 5e6. *)
Lemma field_magnitude_between_extremes_witness :
  [V3 3 4 0; V3 0 3 4] <> []
  /\ 5 * 1e6 <= field_magnitude [V3 3 4 0; V3 0 3 4] <= 5 * 1e6.
Proof.
  assert (H : [V3 3 4 0; V3 0 3 4] <> []) by discriminate.
  split; [exact H|].
  apply (@field_magnitude_between_extremes 5 5 [V3 3 4 0; V3 0 3 4] H).
  assert (E : sqrt 25 = 5).
  { replace 25 with (5 * 5) by lra. apply sqrt_square. lra. }
  intros b [<-|[<-|[]]]; simpl;
    [replace (3 * 3 + 4 * 4 + 0 * 0) with 25 by lra
    |replace (0 * 0 + 3 * 3 + 4 * 4) with 25 by lra]; rewrite E; lra.
Defined.

Local Close Scope R_scope.

(** *** How many feature rows there are *)

Lemma window_count (n w : Z) :
  (0 < w)%Z -> (0 < n)%Z -> Py.range_len 0 (n - w) w = ((n - 1) / w)%Z.
Proof.
  intros Hw Hn. unfold Py.range_len.
  destruct (0 <? n - w)%Z eqn:E.
  - apply Z.ltb_lt in E.
    replace (n - 1)%Z with (n - w - 0 - 1 + 1 * w)%Z by lia.
    rewrite Z.div_add by lia. reflexivity.
  - apply Z.ltb_ge in E. symmetry. apply Z.div_small. lia.
Qed.

(** X15.  A series of [n >= 1] samples yields [(n - 1) // 50] rows of every
    feature, one window short of [n // 50] whenever 50 divides [n]: each
    feature list of the script's 750 samples has 14 entries, not 15. *)
Theorem feature_rows_count
    (welch : list R -> R -> Z -> list R * list R) (noisy_B : list Vec3) :
  noisy_B <> [] ->
  let n := Z.of_nat (length noisy_B) in
  Z.of_nat (length (feature_windows window_size noisy_B)) = ((n - 1) / 50)%Z
  /\ Z.of_nat (length (spectral_power_feature welch noisy_B)) = ((n - 1) / 50)%Z
  /\ ((50 | n)%Z ->
        Z.of_nat (length (spectral_power_feature welch noisy_B)) = (n / 50 - 1)%Z).
Proof.
  intros Hne n.
  assert (Hn : (0 < n)%Z) by (subst n; destruct noisy_B; [congruence|simpl; lia]).
  assert (Hw : Z.of_nat (length (feature_windows window_size noisy_B)) = ((n - 1) / 50)%Z).
  { unfold feature_windows, window_starts. rewrite length_map.
    rewrite PyFacts.length_range by reflexivity.
    now apply window_count. }
  split; [exact Hw|].
  assert (Hs : Z.of_nat (length (spectral_power_feature welch noisy_B)) = ((n - 1) / 50)%Z).
  { unfold spectral_power_feature. now rewrite length_map. }
  split; [exact Hs|].
  intros (c & Hc). rewrite Hs, Hc.
  replace (c * 50 - 1)%Z with (49 + (c - 1) * 50)%Z by lia.
  rewrite Z.div_add, Z.div_mul by lia. reflexivity.
Qed.

(** The script's 750 samples give 14 windows. *)
Lemma feature_rows_count_witness :
  repeat (V3 1 2 3) 750 <> []
  /\ Z.of_nat (length (spectral_power_feature four_bin_welch (repeat (V3 1 2 3) 750)))
     = ((750 - 1) / 50)%Z
  /\ ((750 - 1) / 50 = 14)%Z.
Proof.
  assert (H : repeat (V3 1 2 3) 750 <> []) by discriminate.
  split; [exact H|]. split; [|reflexivity].
  pose proof (proj1 (proj2 (@feature_rows_count four_bin_welch (repeat (V3 1 2 3) 750) H)))
    as Hc.
  rewrite repeat_length in Hc. exact Hc.
Defined.

(** *** Resampling for playback *)

Local Open Scope R_scope.

Lemma length_linspace (start stop : R) (num : nat) :
  length (linspace start stop num) = num.
Proof. unfold linspace. now rewrite length_map, length_seq. Qed.

Lemma nth_linspace (start stop : R) (num k : nat) :
  (k < num)%nat ->
  nth k (linspace start stop num) 0
  = start + INR k * ((stop - start) / INR (num - 1)).
Proof.
  intros Hk. unfold linspace.
  set (f := fun j : nat => start + INR j * ((stop - start) / INR (num - 1))).
  rewrite (nth_indep (map f (seq 0 num)) 0 (f 0%nat))
    by (rewrite length_map, length_seq; assumption).
  rewrite (map_nth f), seq_nth by assumption. reflexivity.
Qed.

Lemma linspace_first (start stop : R) (num : nat) :
  (1 <= num)%nat -> nth 0 (linspace start stop num) 0 = start.
Proof. intros Hn. rewrite nth_linspace by lia. simpl. ring. Qed.

Lemma linspace_last (start stop : R) (num : nat) :
  (2 <= num)%nat -> nth (num - 1) (linspace start stop num) 0 = stop.
Proof.
  intros Hn. rewrite nth_linspace by lia.
  assert (0 < INR (num - 1)) by (apply lt_0_INR; lia).
  field. lra.
Qed.

Lemma in_linspace_bounds (start stop : R) (num : nat) (a : R) :
  start <= stop -> In a (linspace start stop num) -> start <= a <= stop.
Proof.
  intros Hle Ha. unfold linspace in Ha. apply in_map_iff in Ha.
  destruct Ha as (k & <- & Hk). apply in_seq in Hk.
  destruct (Nat.eq_dec (num - 1) 0) as [E|E].
  - assert (k = 0%nat) as -> by lia. simpl. lra.
  - assert (Hn : 0 < INR (num - 1)) by (apply lt_0_INR; lia).
    assert (Hk0 : 0 <= INR k) by apply pos_INR.
    assert (Hk1 : INR k <= INR (num - 1)) by (apply le_INR; lia).
    set (d := (stop - start) / INR (num - 1)).
    assert (Hd : d * INR (num - 1) = stop - start) by (unfold d; field; lra).
    assert (0 <= d) by (apply Rnot_lt_le; intros Hneg; nra).
    nra.
Qed.

Lemma evaluate_total (f : R -> option R) (g : R -> R) (l : list R) :
  (forall a, In a l -> f a = Some (g a)) -> evaluate f l = Some (map g l).
Proof.
  induction l as [|a rest IH]; intros H; [reflexivity|]. simpl.
  rewrite (H a) by now left.
  rewrite IH by (intros c Hc; apply H; now right). reflexivity.
Qed.

Lemma increasing_map_seq (f : nat -> R) (s m : nat) :
  (forall k, f k < f (S k)) -> increasing (map f (seq s m)) = true.
Proof.
  intros Hf. revert s. induction m as [|m IH]; intros s; [reflexivity|].
  destruct m as [|m]; [reflexivity|].
  change (increasing (map f (seq s (S (S m)))))
    with (ltb (f s) (f (S s)) && increasing (map f (seq (S s) (S m)))).
  rewrite IH. unfold ltb. destruct (Rlt_dec (f s) (f (S s))) as [_|Hn]; [reflexivity|].
  exfalso. apply Hn, Hf.
Qed.

(** Over as many points as there are samples, the abscissas are the sample
    indices. *)
Lemma sample_indices (n k : nat) :
  (2 <= n)%nat -> (k < n)%nat -> nth k (linspace 0 (INR n - 1) n) 0 = INR k.
Proof.
  intros Hn Hk. rewrite nth_linspace by assumption.
  rewrite minus_INR by lia. simpl (INR 1).
  assert (1 < INR n) by (change 1 with (INR 1); apply lt_INR; lia).
  field. lra.
Qed.

Lemma sample_indices_increasing (n : nat) :
  (2 <= n)%nat -> increasing (linspace 0 (INR n - 1) n) = true.
Proof.
  intros Hn. unfold linspace. apply increasing_map_seq. intros k.
  rewrite minus_INR by lia. simpl (INR 1).
  assert (1 < INR n) by (change 1 with (INR 1); apply lt_INR; lia).
  replace ((INR n - 1 - 0) / (INR n - 1)) with 1 by (field; lra).
  rewrite S_INR. lra.
Qed.

(** X16.  [smooth_resample] on 1-D data raises when [original_points] is
    not the number of samples and when there are fewer than 4 samples.
    Otherwise it returns [target_points] values, the cubic spline through
    the samples at their indices [0, 1, ..] evaluated at abscissas between
    the first and the last index, so the interpolant's bounds check never
    fires; and with a spline that reproduces the data at the two end knots,
    the resampled series starts and ends with the first and the last
    sample. *)
Theorem resampling_stays_within_the_samples
    (cubic_spline : list R -> list R -> R -> R) (data : list R)
    (original_points target_points : nat) :
  let original_indices := linspace 0 (INR (length data) - 1) original_points in
  let target_indices := linspace 0 (INR (length data) - 1) target_points in
  (original_points <> length data \/ (length data < 4)%nat ->
   smooth_resample cubic_spline data original_points target_points = None)
  /\ (original_points = length data -> (4 <= length data)%nat ->
      smooth_resample cubic_spline data original_points target_points
      = Some (map (cubic_spline original_indices data) target_indices)
      /\ length (map (cubic_spline original_indices data) target_indices) = target_points
      /\ (forall k, (k < original_points)%nat -> nth k original_indices 0 = INR k)
      /\ (forall a, In a target_indices ->
            nth 0 original_indices 0 <= a
            <= nth (original_points - 1) original_indices 0)
      /\ ((2 <= target_points)%nat ->
          cubic_spline original_indices data 0 = nth 0 data 0 ->
          cubic_spline original_indices data (INR (length data) - 1)
          = nth (length data - 1) data 0 ->
          nth 0 (map (cubic_spline original_indices data) target_indices) 0
          = nth 0 data 0
          /\ nth (target_points - 1)
               (map (cubic_spline original_indices data) target_indices) 0
             = nth (length data - 1) data 0)).
Proof.
  intros original_indices target_indices. split.
  - intros Hbad. unfold smooth_resample, interp1d. rewrite length_linspace.
    destruct (Nat.eqb_spec (length data) original_points) as [Heq|Hne];
      [|reflexivity].
    destruct Hbad as [Hbad|Hbad]; [congruence|]. simpl.
    destruct (Nat.ltb_spec original_points 4) as [_|Hge]; [reflexivity|lia].
  - intros Heq Hlen.
    assert (Hrange : 0 <= INR (length data) - 1).
    { assert (1 <= INR (length data)) by (change 1 with (INR 1); apply le_INR; lia).
      lra. }
    assert (Hfirst : nth 0 original_indices 0 = 0).
    { unfold original_indices. apply linspace_first. lia. }
    assert (Hlast : nth (original_points - 1) original_indices 0 = INR (length data) - 1).
    { unfold original_indices. apply linspace_last. lia. }
    assert (Hin : forall a, In a target_indices ->
              nth 0 original_indices 0 <= a
              <= nth (original_points - 1) original_indices 0).
    { intros a Ha. rewrite Hfirst, Hlast.
      now apply in_linspace_bounds with target_points. }
    split; [|split; [|split; [|split]]].
    + unfold smooth_resample, interp1d. fold original_indices target_indices.
      assert (Hl : length original_indices = original_points)
        by apply length_linspace.
      rewrite Hl.
      destruct (Nat.eqb_spec (length data) original_points) as [_|Hne];
        [|congruence]. simpl.
      destruct (Nat.ltb_spec original_points 4) as [Hlt|_]; [lia|].
      assert (Hinc : increasing original_indices = true).
      { unfold original_indices. rewrite Heq. apply sample_indices_increasing. lia. }
      rewrite Hinc. simpl.
      apply evaluate_total. intros a Ha. destruct (Hin a Ha) as (Hlo & Hhi).
      unfold ltb.
      destruct (Rlt_dec a (nth 0 original_indices 0)) as [Hbelow|_]; [lra|].
      destruct (Rlt_dec (nth (original_points - 1) original_indices 0) a)
        as [Habove|_]; [lra|].
      reflexivity.
    + unfold target_indices. now rewrite length_map, length_linspace.
    + intros k Hk. unfold original_indices. rewrite Heq.
      apply sample_indices; lia.
    + exact Hin.
    + intros Htp H0 Hend.
      assert (Hnth : forall k, (k < target_points)%nat ->
                nth k (map (cubic_spline original_indices data) target_indices) 0
                = cubic_spline original_indices data (nth k target_indices 0)).
      { intros k Hk.
        rewrite (nth_indep _ 0 (cubic_spline original_indices data 0))
          by (unfold target_indices; rewrite length_map, length_linspace; assumption).
        apply (map_nth (cubic_spline original_indices data)). }
      rewrite !Hnth by lia. unfold target_indices.
      rewrite linspace_first, linspace_last by lia.
      split; assumption.
Qed.

(** Four samples resampled to two; three samples, and four samples taken
    for five, are turned down. *)
Lemma resampling_stays_within_the_samples_witness :
  smooth_resample knot_below [1; 2; 3; 4] 4 2
  = Some (map (knot_below (linspace 0 (INR 4 - 1) 4) [1; 2; 3; 4])
            (linspace 0 (INR 4 - 1) 2))
  /\ smooth_resample knot_below [1; 2; 3] 3 2 = None
  /\ smooth_resample knot_below [1; 2; 3; 4] 5 2 = None.
Proof.
  split; [|split].
  - apply (proj2 (@resampling_stays_within_the_samples knot_below [1; 2; 3; 4] 4 2));
      [reflexivity|simpl; lia].
  - apply (proj1 (@resampling_stays_within_the_samples knot_below [1; 2; 3] 3 2)).
    right. simpl. lia.
  - apply (proj1 (@resampling_stays_within_the_samples knot_below [1; 2; 3; 4] 5 2)).
    left. simpl. lia.
Defined.

Local Close Scope R_scope.

End SimulationFacts.

(* ================================================================== *)
(** * magnet_calibration.py: the fit and live tracking *)
(* ================================================================== *)

Module CalibrationFacts.

Import Np NpFacts Calibration.

Local Open Scope R_scope.

(** ** Extremes of a column *)

Lemma fold_Rmin_spec (l : list R) (a : R) :
  let m := fold_left Rmin l a in
  (m = a \/ In m l) /\ m <= a /\ forall b, In b l -> m <= b.
Proof.
  revert a. induction l as [|h t IH]; intros a; simpl.
  - split; [now left|]. split; [lra|]. intros b [].
  - destruct (IH (Rmin a h)) as (Hin & Hle & Hall).
    pose proof (Rmin_l a h). pose proof (Rmin_r a h).
    split; [|split].
    + destruct Hin as [Heq|Hin]; [|now right; right].
      rewrite Heq. unfold Rmin. destruct (Rle_dec a h); [now left|now right; left].
    + lra.
    + intros b [<-|Hb]; [lra|now apply Hall].
Qed.

Lemma fold_Rmax_spec (l : list R) (a : R) :
  let m := fold_left Rmax l a in
  (m = a \/ In m l) /\ a <= m /\ forall b, In b l -> b <= m.
Proof.
  revert a. induction l as [|h t IH]; intros a; simpl.
  - split; [now left|]. split; [lra|]. intros b [].
  - destruct (IH (Rmax a h)) as (Hin & Hle & Hall).
    pose proof (Rmax_l a h). pose proof (Rmax_r a h).
    split; [|split].
    + destruct Hin as [Heq|Hin]; [|now right; right].
      rewrite Heq. unfold Rmax. destruct (Rle_dec a h); [now right; left|now left].
    + lra.
    + intros b [<-|Hb]; [lra|now apply Hall].
Qed.

Lemma np_min_is_min (l : list R) : l <> [] -> is_min (np_min l) l.
Proof.
  destruct l as [|a t]; [congruence|]. intros _. simpl.
  destruct (fold_Rmin_spec t a) as (Hin & Hle & Hall). split.
  - destruct Hin as [->|Hin]; [now left|now right].
  - intros b [<-|Hb]; auto.
Qed.

Lemma np_max_is_max (l : list R) : l <> [] -> is_max (np_max l) l.
Proof.
  destruct l as [|a t]; [congruence|]. intros _. simpl.
  destruct (fold_Rmax_spec t a) as (Hin & Hle & Hall). split.
  - destruct Hin as [->|Hin]; [now left|now right].
  - intros b [<-|Hb]; auto.
Qed.

(** ** Algebra of 3x3 arrays *)

Ltac unfold_arrays :=
  unfold symmetric, identity, matmul, matvec, vecmat, transpose, diag,
    col0, col1, col2, vscale, vadd, vsub, vzero, dot in *; simpl in *.

Ltac mat_ring :=
  unfold_arrays; apply mat3_eq; apply vec3_eq; simpl; ring.

Lemma matmul_assoc (a b c : Mat3) : matmul (matmul a b) c = matmul a (matmul b c).
Proof. destruct a as [[] [] []], b as [[] [] []], c as [[] [] []]. mat_ring. Qed.

Lemma matmul_identity_r (a : Mat3) : matmul a identity = a.
Proof. destruct a as [[] [] []]. mat_ring. Qed.

Lemma matmul_identity_l (a : Mat3) : matmul identity a = a.
Proof. destruct a as [[] [] []]. mat_ring. Qed.

Lemma matmul_diag (u v : Vec3) :
  matmul (diag u) (diag v) = diag (V3 (vx u * vx v) (vy u * vy v) (vz u * vz v)).
Proof. destruct u, v. mat_ring. Qed.

Lemma matvec_matmul (a b : Mat3) (v : Vec3) :
  matvec (matmul a b) v = matvec a (matvec b v).
Proof.
  destruct a as [[] [] []], b as [[] [] []], v.
  unfold_arrays. apply vec3_eq; simpl; ring.
Qed.

(** The entrywise root of a diagonal array is the diagonal array of the
    roots: the root of each zero off the diagonal is zero. *)
Lemma sqrt_of_diag (v : Vec3) : mmap np_sqrt (diag v) = diag (vmap sqrt v).
Proof. unfold mmap, diag, vmap, np_sqrt. simpl. now rewrite sqrt_0. Qed.

Lemma conjugated_diag_symmetric (q : Mat3) (d : Vec3) :
  symmetric (matmul (matmul q (diag d)) (transpose q)).
Proof. unfold symmetric. destruct q as [[] [] []], d. mat_ring. Qed.

Lemma assemble_symmetric (v : Vec6) : symmetric (assemble v).
Proof. reflexivity. Qed.

Lemma sqrt_diag_squared (d : Vec3) :
  nonneg3 d -> matmul (diag (vmap sqrt d)) (diag (vmap sqrt d)) = diag d.
Proof.
  intros (Hx & Hy & Hz). rewrite matmul_diag. destruct d as [a b c]. simpl in *.
  now rewrite !sqrt_sqrt.
Qed.

Lemma matvec_col0 (a b : Mat3) : matvec a (col0 b) = col0 (matmul a b).
Proof. destruct a as [[] [] []], b as [[] [] []]. unfold_arrays. apply vec3_eq; simpl; ring. Qed.

Lemma matvec_col1 (a b : Mat3) : matvec a (col1 b) = col1 (matmul a b).
Proof. destruct a as [[] [] []], b as [[] [] []]. unfold_arrays. apply vec3_eq; simpl; ring. Qed.

Lemma matvec_col2 (a b : Mat3) : matvec a (col2 b) = col2 (matmul a b).
Proof. destruct a as [[] [] []], b as [[] [] []]. unfold_arrays. apply vec3_eq; simpl; ring. Qed.

(** Each column of an orthogonal [q] is an eigenvector of
    [q diag(d) q^T], for the matching entry of [d]. *)
Lemma conjugated_diag_eigenvectors (q : Mat3) (d : Vec3) :
  matmul (transpose q) q = identity ->
  let s := matmul (matmul q (diag d)) (transpose q) in
  matvec s (col0 q) = vscale (vx d) (col0 q)
  /\ matvec s (col1 q) = vscale (vy d) (col1 q)
  /\ matvec s (col2 q) = vscale (vz d) (col2 q).
Proof.
  intros Hq s. subst s.
  rewrite !matvec_matmul, matvec_col0, matvec_col1, matvec_col2, Hq.
  destruct q as [[] [] []], d.
  unfold_arrays. repeat split; apply vec3_eq; simpl; ring.
Qed.

(** With eigenvalues that are not negative, the transform squares to the
    decomposed matrix. *)
Lemma root_squares_to_matrix (m : Mat3) (vals : Vec3) (vecs : Mat3) :
  eigendecomposition m (vals, vecs) -> nonneg3 vals ->
  let s := matmul (matmul vecs (diag (vmap sqrt vals))) (transpose vecs) in
  matmul s s = m.
Proof.
  intros ((Hq & _) & Hm) Hpos s. simpl in Hq, Hm. subst s.
  set (r := diag (vmap sqrt vals)).
  rewrite Hm.
  rewrite (matmul_assoc (matmul vecs r) (transpose vecs)).
  rewrite <- (matmul_assoc (transpose vecs) (matmul vecs r)).
  rewrite <- (matmul_assoc (transpose vecs) vecs r), Hq, matmul_identity_l.
  rewrite <- (matmul_assoc (matmul vecs r) r), (matmul_assoc vecs r r).
  subst r. now rewrite sqrt_diag_squared.
Qed.

(** ** The least-squares fit *)

Lemma design_row_quadric (p : Vec3) (w : Vec6) : dot6 (design_row p) w = quadric w p.
Proof. unfold dot6, design_row, quadric. simpl. ring. Qed.

Lemma quadric_is_form (v : Vec6) (p : Vec3) :
  quadric v p = dot p (matvec (assemble v) p).
Proof. unfold quadric, assemble, matvec, dot. simpl. ring. Qed.

Lemma residual_is_fit_error (centered_data : list Vec3) (w : Vec6) :
  residual_ss (design_matrix centered_data) (ones (length centered_data)) w
  = fit_error centered_data w.
Proof.
  unfold design_matrix, ones.
  induction centered_data as [|p rest IH]; simpl; [reflexivity|].
  now rewrite IH, design_row_quadric.
Qed.

Lemma fit_error_nonneg (centered_data : list Vec3) (w : Vec6) :
  0 <= fit_error centered_data w.
Proof.
  induction centered_data as [|p rest IH]; simpl; [lra|].
  pose proof (Rle_0_sqr (quadric w p - 1)) as Hs. unfold Rsqr in Hs. lra.
Qed.

Lemma fit_error_zero (centered_data : list Vec3) (w : Vec6) :
  fit_error centered_data w = 0 <->
  forall p, In p centered_data -> quadric w p = 1.
Proof.
  induction centered_data as [|p rest IH]; simpl.
  - split; [intros _ q []|reflexivity].
  - pose proof (fit_error_nonneg rest w) as Hr.
    pose proof (Rle_0_sqr (quadric w p - 1)) as Hs. unfold Rsqr in Hs.
    split.
    + intros H0 q [<-|Hq].
      * assert ((quadric w p - 1) * (quadric w p - 1) = 0) as Hz by lra.
        apply Rmult_integral in Hz. lra.
      * apply IH; [lra|assumption].
    + intros Hall.
      rewrite (Hall p (or_introl eq_refl)).
      assert (fit_error rest w = 0) as -> by (apply IH; auto).
      lra.
Qed.

Lemma dot6_sub (row a b : Vec6) : dot6 row (sub6 a b) = dot6 row a - dot6 row b.
Proof. unfold dot6, sub6. simpl. ring. Qed.

Lemma sub6_zero (a b : Vec6) : sub6 a b = zero6 -> a = b.
Proof.
  destruct a, b. unfold sub6, zero6. simpl. intros H. injection H as H0 H1 H2 H3 H4 H5.
  f_equal; lra.
Qed.

(** A least-squares solution of a full-rank system that has an exact
    solution is that solution. *)
Lemma exact_fit_unique (centered_data : list Vec3) (v e : Vec6) :
  full_rank (design_matrix centered_data) ->
  least_squares (design_matrix centered_data) (ones (length centered_data)) v ->
  (forall p, In p centered_data -> quadric e p = 1) ->
  v = e.
Proof.
  intros Hfull Hls He.
  specialize (Hls e). rewrite !residual_is_fit_error in Hls.
  apply fit_error_zero in He.
  pose proof (fit_error_nonneg centered_data v) as Hv.
  assert (fit_error centered_data v = 0) as Hv0 by lra.
  apply sub6_zero, Hfull. intros row Hrow.
  apply in_map_iff in Hrow. destruct Hrow as (p & <- & Hp).
  rewrite dot6_sub, !design_row_quadric.
  rewrite (proj1 (fit_error_zero _ _) Hv0 p Hp), (proj1 (fit_error_zero _ _) He p Hp).
  lra.
Qed.

(** ** The calibration fit: what it returns *)

Section FitFacts.

Variable lstsq : list Vec6 -> list R -> Vec6.
Variable eigh : Mat3 -> Vec3 * Mat3.

Lemma calculate_accepts (file : CalibrationFile) (rows : list Vec3) :
  (50 <= length rows)%nat ->
  calculate_and_save_calibration lstsq eigh file (Some rows)
  = (Some (hard_iron_offset rows, soft_iron lstsq eigh rows (hard_iron_offset rows)),
     Some (hard_iron_offset rows, soft_iron lstsq eigh rows (hard_iron_offset rows))).
Proof.
  intros Hlen. unfold calculate_and_save_calibration.
  assert ((length rows <? 50)%nat = false) as -> by (apply Nat.ltb_ge; lia).
  reflexivity.
Qed.

Lemma soft_iron_eq (rows : list Vec3) (offset : Vec3) :
  let centered_data := center rows offset in
  let M := assemble (lstsq (design_matrix centered_data) (ones (length centered_data))) in
  soft_iron lstsq eigh rows offset
  = matmul (matmul (snd (eigh M)) (diag (vmap sqrt (fst (eigh M)))))
           (transpose (snd (eigh M))).
Proof.
  intros centered_data M. unfold soft_iron. fold centered_data. fold M.
  destruct (eigh M) as [eig_vals eig_vecs]. simpl.
  now rewrite sqrt_of_diag.
Qed.

End FitFacts.

Example hard_iron_offset_three_samples :
  hard_iron_offset [V3 1 5 3; V3 3 4 9; V3 2 6 0] = V3 2 5 4.5.
Proof.
  unfold hard_iron_offset, min_axis0, max_axis0, vdiv, vadd, np_min, np_max.
  simpl.
  repeat match goal with
         | |- context [Rmin ?a ?b] =>
             first [rewrite (Rmin_left a b) by lra | rewrite (Rmin_right a b) by lra]
         | |- context [Rmax ?a ?b] =>
             first [rewrite (Rmax_left a b) by lra | rewrite (Rmax_right a b) by lra]
         end.
  apply vec3_eq; simpl; lra.
Qed.

(** ** The claims about the calibration fit *)

(** C7.  With no data or fewer than 50 samples the fit fails: it returns no
    parameters and leaves the calibration file as it was.  With 50 samples
    or more it does not fail: parameters are returned and saved. *)
Theorem insufficient_data_rejected
    (lstsq : list Vec6 -> list R -> Vec6) (eigh : Mat3 -> Vec3 * Mat3)
    (file : CalibrationFile) :
  calculate_and_save_calibration lstsq eigh file None = (None, file)
  /\ forall rows,
       ((length rows < 50)%nat ->
          calculate_and_save_calibration lstsq eigh file (Some rows) = (None, file))
       /\ ((50 <= length rows)%nat ->
             exists params,
               calculate_and_save_calibration lstsq eigh file (Some rows)
               = (Some params, Some params)).
Proof.
  split; [reflexivity|]. intros rows. split.
  - intros Hlt. unfold calculate_and_save_calibration.
    now apply Nat.ltb_lt in Hlt as ->.
  - intros Hge. eexists. now apply calculate_accepts.
Qed.

(** Forty-nine samples are refused, fifty are fitted. *)
Lemma insufficient_data_rejected_witness :
  calculate_and_save_calibration sphere_lstsq identity_eigh None
    (Some (repeat (V3 1 2 3) 49)) = (None, None)
  /\ exists params,
       calculate_and_save_calibration sphere_lstsq identity_eigh None
         (Some two_point_sweep) = (Some params, Some params).
Proof.
  pose proof (insufficient_data_rejected sphere_lstsq identity_eigh None) as [_ H].
  split.
  - apply (proj1 (H (repeat (V3 1 2 3) 49))). simpl. lia.
  - apply (proj2 (H two_point_sweep)). simpl. lia.
Defined.

(** C5.  For an accepted sample set, each component of the returned offset
    is the midpoint [(min + max) / 2] of the least and the greatest value of
    that axis over all samples. *)
Theorem hard_iron_offset_is_midpoint
    (lstsq : list Vec6 -> list R -> Vec6) (eigh : Mat3 -> Vec3 * Mat3)
    (file : CalibrationFile) (rows : list Vec3) :
  (50 <= length rows)%nat ->
  exists offset transform lo hi,
    calculate_and_save_calibration lstsq eigh file (Some rows)
    = (Some (offset, transform), Some (offset, transform))
    /\ is_min (vx lo) (map vx rows) /\ is_max (vx hi) (map vx rows)
    /\ is_min (vy lo) (map vy rows) /\ is_max (vy hi) (map vy rows)
    /\ is_min (vz lo) (map vz rows) /\ is_max (vz hi) (map vz rows)
    /\ offset = V3 ((vx lo + vx hi) / 2) ((vy lo + vy hi) / 2) ((vz lo + vz hi) / 2).
Proof.
  intros Hlen.
  exists (hard_iron_offset rows), (soft_iron lstsq eigh rows (hard_iron_offset rows)),
         (min_axis0 rows), (max_axis0 rows).
  split; [now apply calculate_accepts|].
  assert (Hne : forall f : Vec3 -> R, map f rows <> []).
  { intros f E. apply (f_equal (@length R)) in E. rewrite length_map in E.
    simpl in E. lia. }
  repeat (split; [first [apply np_min_is_min | apply np_max_is_max]; apply Hne|]).
  unfold hard_iron_offset, vdiv, vadd. simpl. f_equal; lra.
Qed.

Lemma hard_iron_offset_is_midpoint_witness :
  (50 <= length two_point_sweep)%nat
  /\ exists offset transform lo hi,
       calculate_and_save_calibration sphere_lstsq identity_eigh None (Some two_point_sweep)
       = (Some (offset, transform), Some (offset, transform))
       /\ is_min (vx lo) (map vx two_point_sweep) /\ is_max (vx hi) (map vx two_point_sweep)
       /\ is_min (vy lo) (map vy two_point_sweep) /\ is_max (vy hi) (map vy two_point_sweep)
       /\ is_min (vz lo) (map vz two_point_sweep) /\ is_max (vz hi) (map vz two_point_sweep)
       /\ offset = V3 ((vx lo + vx hi) / 2) ((vy lo + vy hi) / 2) ((vz lo + vz hi) / 2).
Proof.
  assert (H : (50 <= length two_point_sweep)%nat) by (simpl; lia).
  split; [exact H|].
  exact (hard_iron_offset_is_midpoint sphere_lstsq identity_eigh None two_point_sweep H).
Defined.

Lemma in_concat_repeat {A : Type} (base : list A) (k : nat) (a : A) :
  In a (concat (repeat base (S k))) <-> In a base.
Proof.
  induction k as [|k IH].
  - simpl. rewrite app_nil_r. tauto.
  - change (repeat base (S (S k))) with (base :: repeat base (S k)).
    rewrite concat_cons, in_app_iff. tauto.
Qed.

Lemma is_min_unique (l : list R) (a b : R) : is_min a l -> is_min b l -> a = b.
Proof. intros (Ha & Hla) (Hb & Hlb). apply Rle_antisym; auto. Qed.

Lemma is_max_unique (l : list R) (a b : R) : is_max a l -> is_max b l -> a = b.
Proof. intros (Ha & Hla) (Hb & Hlb). apply Rle_antisym; auto. Qed.

Lemma np_min_eq (l : list R) (m : R) : is_min m l -> np_min l = m.
Proof.
  intros Hm. apply is_min_unique with l; [|assumption].
  apply np_min_is_min. destruct Hm as (Hin & _). now destruct l.
Qed.

Lemma np_max_eq (l : list R) (m : R) : is_max m l -> np_max l = m.
Proof.
  intros Hm. apply is_max_unique with l; [|assumption].
  apply np_max_is_max. destruct Hm as (Hin & _). now destruct l.
Qed.

(** The extreme of a column of a sweep that repeats [base]: [p] is a sample
    of [base] that attains it. *)
Ltac column_extreme p :=
  split;
  [ apply in_map_iff; exists p; split;
    [ reflexivity | apply in_concat_repeat; simpl; tauto ]
  | let a := fresh "a" in
    let Ha := fresh "Ha" in
    let q := fresh "q" in
    intros a Ha; apply in_map_iff in Ha; destruct Ha as (q & <- & Ha);
    apply in_concat_repeat in Ha; simpl in Ha;
    repeat (destruct Ha as [<-|Ha]; [simpl; lra|]); contradiction ].

Lemma planar_offset : hard_iron_offset planar_sweep = vzero.
Proof.
  unfold hard_iron_offset, min_axis0, max_axis0, planar_sweep.
  rewrite (np_min_eq (m := -1)) by column_extreme (V3 (-1) 0 0).
  rewrite (np_max_eq (m := 1)) by column_extreme (V3 1 0 0).
  rewrite (np_min_eq (m := -1)) by column_extreme (V3 0 (-1) 0).
  rewrite (np_max_eq (m := 1)) by column_extreme (V3 0 1 0).
  rewrite (np_min_eq (m := 0)) by column_extreme (V3 1 0 0).
  rewrite (np_max_eq (m := 0)) by column_extreme (V3 1 0 0).
  apply vec3_eq; simpl; lra.
Qed.

Lemma planar_centered (p : Vec3) :
  In p (center planar_sweep vzero) ->
  (vx p = 1 \/ vx p = -1) /\ vy p = 0 /\ vz p = 0
  \/ vx p = 0 /\ (vy p = 1 \/ vy p = -1) /\ vz p = 0.
Proof.
  unfold center, planar_sweep. intros Hp.
  apply in_map_iff in Hp. destruct Hp as (q & <- & Hq).
  apply in_concat_repeat in Hq. simpl in Hq.
  repeat (destruct Hq as [<-|Hq]; [simpl; lra|]). contradiction.
Qed.

Lemma planar_fit_exact : fit_error (center planar_sweep vzero) (V6 1 1 0 0 0 0) = 0.
Proof.
  apply fit_error_zero. intros p Hp. apply planar_centered in Hp.
  unfold quadric. simpl. nra.
Qed.

Lemma planar_result :
  calculate_and_save_calibration planar_lstsq planar_eigh None (Some planar_sweep)
  = (Some (vzero, diag (V3 1 1 0)), Some (vzero, diag (V3 1 1 0))).
Proof.
  rewrite calculate_accepts by (simpl; lia).
  rewrite planar_offset, soft_iron_eq.
  assert (matmul (matmul (M3 (V3 0 1 0) (V3 0 0 1) (V3 1 0 0)) (diag (vmap sqrt (V3 0 1 1))))
            (transpose (M3 (V3 0 1 0) (V3 0 0 1) (V3 1 0 0)))
          = diag (V3 1 1 0)) as E.
  { unfold vmap. simpl. rewrite sqrt_0, sqrt_1. mat_ring. }
  simpl. simpl in E. now rewrite E.
Qed.

(** C1, refuted on the planar sweep.  Its 52 samples all have [z = 0]; no
    choice of [lstsq] and [eigh] makes the fit fail on them; and with the
    answers the two routines owe on this input (the least-squares solution of
    least norm, an eigendecomposition whose first eigenvalue is 0) the fit
    returns and saves the transform [diag(1, 1, 0)], which sends the unit
    vector along [z] to 0. *)
Lemma planar_sweep_is_fitted :
  (50 <= length planar_sweep)%nat
  /\ (forall p, In p planar_sweep -> vz p = 0)
  /\ ~ (exists lstsq eigh file,
          fst (calculate_and_save_calibration lstsq eigh file (Some planar_sweep)) = None)
  /\ (let centered_data := center planar_sweep (hard_iron_offset planar_sweep) in
      let D := design_matrix centered_data in
      let b := ones (length centered_data) in
      let M := assemble (planar_lstsq D b) in
      least_squares D b (planar_lstsq D b)
      /\ (forall w, least_squares D b w ->
            dot6 (planar_lstsq D b) (planar_lstsq D b) <= dot6 w w)
      /\ eigendecomposition M (planar_eigh M)
      /\ vx (fst (planar_eigh M)) = 0
      /\ calculate_and_save_calibration planar_lstsq planar_eigh None (Some planar_sweep)
         = (Some (vzero, diag (V3 1 1 0)), Some (vzero, diag (V3 1 1 0)))
      /\ matvec (diag (V3 1 1 0)) (V3 0 0 1) = vscale 0 (V3 0 0 1)).
Proof.
  split; [simpl; lia|]. split.
  { intros p Hp. unfold planar_sweep in Hp. apply in_concat_repeat in Hp.
    simpl in Hp. repeat (destruct Hp as [<-|Hp]; [reflexivity|]). contradiction. }
  split.
  { intros (lstsq & eigh & file & Hnone).
    rewrite calculate_accepts in Hnone by (simpl; lia). discriminate. }
  rewrite planar_offset. intros centered_data D b M.
  assert (Hexact : residual_ss D b (planar_lstsq D b) = 0).
  { subst D b. rewrite residual_is_fit_error. apply planar_fit_exact. }
  split; [|split; [|split; [|split; [|split]]]].
  - intros w. rewrite Hexact. subst D b. rewrite residual_is_fit_error.
    apply fit_error_nonneg.
  - intros w Hw. specialize (Hw (planar_lstsq D b)). rewrite Hexact in Hw.
    subst D b. rewrite residual_is_fit_error in Hw.
    pose proof (fit_error_nonneg centered_data w) as Hge.
    assert (Hzero : fit_error centered_data w = 0) by lra.
    pose proof (proj1 (fit_error_zero _ _) Hzero) as Hall.
    assert (H1 : quadric w (vsub (V3 1 0 0) vzero) = 1).
    { apply Hall. subst centered_data. unfold center, planar_sweep.
      apply (in_map (fun p => vsub p vzero)), in_concat_repeat. simpl. tauto. }
    assert (H2 : quadric w (vsub (V3 0 1 0) vzero) = 1).
    { apply Hall. subst centered_data. unfold center, planar_sweep.
      apply (in_map (fun p => vsub p vzero)), in_concat_repeat. simpl. tauto. }
    unfold quadric in H1, H2. simpl in H1, H2.
    unfold dot6, planar_lstsq. simpl.
    assert (c0 w = 1) by lra. assert (c1 w = 1) by lra.
    pose proof (Rle_0_sqr (c2 w)). pose proof (Rle_0_sqr (c3 w)).
    pose proof (Rle_0_sqr (c4 w)). pose proof (Rle_0_sqr (c5 w)).
    unfold Rsqr in *. nra.
  - split; [split|]; simpl; mat_ring.
  - reflexivity.
  - exact planar_result.
  - apply vec3_eq; unfold_arrays; ring.
Qed.

Lemma center_zero (rows : list Vec3) : center rows vzero = rows.
Proof.
  unfold center. rewrite <- (map_id rows) at 2. apply map_ext.
  intros [a b c]. apply vec3_eq; simpl; ring.
Qed.

Lemma quadric_sphere (p : Vec3) :
  quadric (V6 1 1 1 0 0 0) p = vx p * vx p + vy p * vy p + vz p * vz p.
Proof. unfold quadric. simpl. ring. Qed.

(** A decomposition of the identity has all eigenvalues equal to 1. *)
Lemma identity_eigenvalues (vals : Vec3) (vecs : Mat3) :
  eigendecomposition identity (vals, vecs) -> vals = V3 1 1 1.
Proof.
  intros ((Hq & _) & Hdec). simpl in Hq, Hdec.
  assert (diag vals
          = matmul (matmul (transpose vecs)
                      (matmul (matmul vecs (diag vals)) (transpose vecs))) vecs) as E.
  { rewrite !matmul_assoc, Hq, matmul_identity_r.
    now rewrite <- matmul_assoc, Hq, matmul_identity_l. }
  rewrite <- Hdec, matmul_identity_r, Hq in E.
  unfold identity, diag in E. simpl in E.
  injection E as Ex Ey Ez. apply vec3_eq; simpl; assumption.
Qed.

(** C6.  Round trip: for at least 50 samples that lie on the unit sphere,
    whose least and greatest values mirror each other on every axis, and
    whose design matrix has full rank (the sweep spans all orientations),
    the fit returns the offset 0 and the identity transform, [lstsq] giving a
    least-squares solution and [eigh] an eigendecomposition.  Real-number
    arithmetic stands for the floats here, so the result is exact. *)
Theorem unit_sphere_round_trip
    (lstsq : list Vec6 -> list R -> Vec6) (eigh : Mat3 -> Vec3 * Mat3)
    (file : CalibrationFile) (rows : list Vec3) :
  (50 <= length rows)%nat ->
  (forall p, In p rows -> vx p * vx p + vy p * vy p + vz p * vz p = 1) ->
  min_axis0 rows = vscale (-1) (max_axis0 rows) ->
  full_rank (design_matrix rows) ->
  least_squares (design_matrix rows) (ones (length rows))
    (lstsq (design_matrix rows) (ones (length rows))) ->
  eigendecomposition identity (eigh identity) ->
  calculate_and_save_calibration lstsq eigh file (Some rows)
  = (Some (vzero, identity), Some (vzero, identity)).
Proof.
  intros Hlen Hsphere Hsym Hfull Hls Hdec.
  rewrite calculate_accepts by assumption.
  assert (hard_iron_offset rows = vzero) as ->.
  { unfold hard_iron_offset. rewrite Hsym.
    destruct (max_axis0 rows) as [a b c]. apply vec3_eq; simpl; lra. }
  rewrite soft_iron_eq, center_zero.
  assert (lstsq (design_matrix rows) (ones (length rows)) = V6 1 1 1 0 0 0) as ->.
  { apply exact_fit_unique with rows; try assumption.
    intros p Hp. rewrite quadric_sphere. now apply Hsphere. }
  change (assemble (V6 1 1 1 0 0 0)) with identity.
  destruct (eigh identity) as [vals vecs] eqn:E.
  pose proof (identity_eigenvalues Hdec) as ->.
  destruct Hdec as ((_ & Hq) & _). simpl in Hq. simpl fst. simpl snd.
  assert (diag (vmap sqrt (V3 1 1 1)) = identity) as ->.
  { unfold vmap. simpl. now rewrite sqrt_1. }
  now rewrite matmul_identity_r, Hq.
Qed.

Lemma sphere_sweep_on_sphere (p : Vec3) :
  In p sphere_sweep -> vx p * vx p + vy p * vy p + vz p * vz p = 1.
Proof.
  unfold sphere_sweep. intros Hp. apply in_concat_repeat in Hp. simpl in Hp.
  repeat (destruct Hp as [<-|Hp]; [simpl; lra|]). contradiction.
Qed.

Lemma sphere_sweep_mirrored : min_axis0 sphere_sweep = vscale (-1) (max_axis0 sphere_sweep).
Proof.
  unfold min_axis0, max_axis0, sphere_sweep.
  rewrite (np_min_eq (m := -1)) by column_extreme (V3 (-1) 0 0).
  rewrite (np_max_eq (m := 1)) by column_extreme (V3 1 0 0).
  rewrite (np_min_eq (m := -1)) by column_extreme (V3 0 (-1) 0).
  rewrite (np_max_eq (m := 1)) by column_extreme (V3 0 1 0).
  rewrite (np_min_eq (m := -1)) by column_extreme (V3 0 0 (-1)).
  rewrite (np_max_eq (m := 1)) by column_extreme (V3 0 0 1).
  apply vec3_eq; simpl; lra.
Qed.

Lemma sphere_sweep_full_rank : full_rank (design_matrix sphere_sweep).
Proof.
  intros w Hall.
  assert (Hrow : forall p, In p sphere_sweep -> dot6 (design_row p) w = 0).
  { intros p Hp. apply Hall. now apply in_map. }
  assert (Hin : forall p,
             In p [V3 1 0 0; V3 (-1) 0 0; V3 0 1 0; V3 0 (-1) 0; V3 0 0 1; V3 0 0 (-1);
                   V3 0.6 0.8 0; V3 0.6 0 0.8; V3 0 0.6 0.8] -> In p sphere_sweep).
  { intros p Hp. now apply in_concat_repeat. }
  pose proof (Hrow (V3 1 0 0) ltac:(apply Hin; simpl; tauto)) as H0.
  pose proof (Hrow (V3 0 1 0) ltac:(apply Hin; simpl; tauto)) as H1.
  pose proof (Hrow (V3 0 0 1) ltac:(apply Hin; simpl; tauto)) as H2.
  pose proof (Hrow (V3 0.6 0.8 0) ltac:(apply Hin; simpl; tauto)) as H3.
  pose proof (Hrow (V3 0.6 0 0.8) ltac:(apply Hin; simpl; tauto)) as H4.
  pose proof (Hrow (V3 0 0.6 0.8) ltac:(apply Hin; simpl; tauto)) as H5.
  unfold dot6, design_row in *. simpl in *.
  destruct w as [w0 w1 w2 w3 w4 w5]. simpl in *.
  unfold zero6. f_equal; lra.
Qed.

(** The round trip on the 54-sample sphere sweep. *)
Lemma unit_sphere_round_trip_witness :
  (50 <= length sphere_sweep)%nat
  /\ calculate_and_save_calibration sphere_lstsq identity_eigh None (Some sphere_sweep)
     = (Some (vzero, identity), Some (vzero, identity)).
Proof.
  assert (H : (50 <= length sphere_sweep)%nat) by (simpl; lia).
  split; [exact H|].
  apply (unit_sphere_round_trip sphere_lstsq identity_eigh None H).
  - exact sphere_sweep_on_sphere.
  - exact sphere_sweep_mirrored.
  - exact sphere_sweep_full_rank.
  - intros w. rewrite !residual_is_fit_error.
    assert (fit_error sphere_sweep (sphere_lstsq (design_matrix sphere_sweep)
                                      (ones (length sphere_sweep))) = 0) as ->.
    { apply fit_error_zero. intros p Hp. unfold sphere_lstsq.
      rewrite quadric_sphere. now apply sphere_sweep_on_sphere. }
    apply fit_error_nonneg.
  - split; [split|]; simpl; mat_ring.
Defined.

Lemma apply_calibration_calibrated (raw offset : Vec3) (matrix : Mat3) :
  apply_calibration raw offset matrix = calibrated raw offset matrix.
Proof. reflexivity. Qed.

Lemma fold_capture_step (offset : Vec3) (matrix : Mat3)
    (lines : list SerialLine) (acc : list Vec3) :
  fold_left (capture_step offset matrix) lines acc
  = acc ++ map (fun raw => calibrated raw offset matrix) (readings lines).
Proof.
  revert acc. induction lines as [|line rest IH]; intros acc; simpl.
  - now rewrite app_nil_r.
  - destruct line; simpl; rewrite IH; [reflexivity|reflexivity|].
    now rewrite <- app_assoc.
Qed.

Lemma capture_reference_eq (offset : Vec3) (matrix : Mat3) (lines : list SerialLine) :
  capture_reference offset matrix lines
  = map (fun raw => calibrated raw offset matrix) (readings lines).
Proof. unfold capture_reference. now rewrite fold_capture_step. Qed.

Lemma track_deltas_eq (offset : Vec3) (matrix : Mat3) (baseline : Vec3)
    (lines : list SerialLine) :
  fst (track_deltas offset matrix baseline lines)
  = map (fun raw => vsub (calibrated raw offset matrix) baseline)
        (readings_before_garbled lines).
Proof.
  induction lines as [|line rest IH]; simpl; [reflexivity|].
  destruct line; simpl; [assumption|reflexivity|].
  destruct (track_deltas offset matrix baseline rest) as [deltas e].
  simpl in *. now rewrite IH.
Qed.

Lemma fold_vadd (l : list Vec3) (a : Vec3) :
  fold_left vadd l a
  = V3 (vx a + total vx l) (vy a + total vy l) (vz a + total vz l).
Proof.
  revert a. induction l as [|p rest IH]; intros a; simpl.
  - destruct a. apply vec3_eq; simpl; ring.
  - rewrite IH. apply vec3_eq; simpl; ring.
Qed.

Lemma mean_axis0_is_mean (l : list Vec3) : l <> [] -> is_mean (mean_axis0 l) l.
Proof.
  intros Hne.
  assert (INR (length l) <> 0) as Hn.
  { apply not_0_INR. destruct l; [congruence|discriminate]. }
  unfold is_mean, mean_axis0, vsum. rewrite fold_vadd. simpl.
  repeat split; field; assumption.
Qed.

(** C8.  When the capture at the start of a session yields a reading, the
    [field_delta] of every raw reading the tracking loop processes is the
    calibrated reading [(raw - offset) . transform] minus the baseline, and
    the baseline is the mean of the calibrated readings of the capture. *)
Theorem field_delta_is_calibrated_minus_baseline
    (offset : Vec3) (matrix : Mat3) (capture_lines tracking_lines : list SerialLine) :
  readings capture_lines <> [] ->
  exists baseline deltas ending,
    live_tracking_demo offset matrix capture_lines tracking_lines
    = Some (deltas, ending)
    /\ is_mean baseline
         (map (fun raw => calibrated raw offset matrix) (readings capture_lines))
    /\ deltas
       = map (fun raw => vsub (calibrated raw offset matrix) baseline)
             (readings_before_garbled tracking_lines).
Proof.
  intros Hne. unfold live_tracking_demo. rewrite capture_reference_eq.
  set (reference := map (fun raw => calibrated raw offset matrix) (readings capture_lines)).
  assert (Href : reference <> []).
  { subst reference. destruct (readings capture_lines); [congruence|discriminate]. }
  destruct reference as [|r0 rest] eqn:E; [congruence|].
  exists (mean_axis0 (r0 :: rest)).
  destruct (track_deltas offset matrix (mean_axis0 (r0 :: rest)) tracking_lines)
    as [deltas ending] eqn:Et.
  exists deltas, ending. split; [reflexivity|]. split.
  - now apply mean_axis0_is_mean.
  - rewrite <- track_deltas_eq, Et. reflexivity.
Qed.

(** A session: two readings captured around a blank and a garbled line, then
    two readings tracked ahead of a garbled line. *)
Lemma field_delta_is_calibrated_minus_baseline_witness :
  let offset := V3 1 1 1 in
  let capture_lines := [Reading (V3 2 2 2); Skipped; Garbled; Reading (V3 4 4 4)] in
  let tracking_lines :=
    [Reading (V3 5 6 7); Skipped; Reading (V3 3 3 3); Garbled; Reading (V3 9 9 9)] in
  readings capture_lines <> []
  /\ exists baseline deltas ending,
       live_tracking_demo offset identity capture_lines tracking_lines
       = Some (deltas, ending)
       /\ is_mean baseline [calibrated (V3 2 2 2) offset identity;
                            calibrated (V3 4 4 4) offset identity]
       /\ deltas = [vsub (calibrated (V3 5 6 7) offset identity) baseline;
                    vsub (calibrated (V3 3 3 3) offset identity) baseline].
Proof.
  intros offset capture_lines tracking_lines.
  assert (H : readings capture_lines <> []) by discriminate.
  split; [exact H|].
  exact (field_delta_is_calibrated_minus_baseline offset identity capture_lines
           tracking_lines H).
Defined.

(** The same session, computed: the baseline is (2, 2, 2) and the loop stops
    at the garbled line with two deltas. *)
Example live_tracking_session :
  exists deltas,
    live_tracking_demo (V3 1 1 1) identity
      [Reading (V3 2 2 2); Skipped; Garbled; Reading (V3 4 4 4)]
      [Reading (V3 5 6 7); Skipped; Reading (V3 3 3 3); Garbled; Reading (V3 9 9 9)]
    = Some (deltas, Raised)
    /\ deltas = [V3 2 3 4; V3 0 0 0].
Proof.
  eexists. split; [reflexivity|].
  unfold mean_axis0, vsum. simpl.
  f_equal; [|f_equal];
    apply vec3_eq; unfold apply_calibration, vdiv; unfold_arrays; lra.
Qed.

(** ** Collecting, fitting and tracking in [main] *)

Lemma fold_collect_step (lines : list SerialLine) (acc : list Vec3) :
  fold_left collect_step lines acc = acc ++ readings lines.
Proof.
  revert acc. induction lines as [|line rest IH]; intros acc; simpl.
  - now rewrite app_nil_r.
  - destruct line; simpl; rewrite IH; [reflexivity|reflexivity|].
    now rewrite <- app_assoc.
Qed.

Lemma collect_calibration_data_eq (lines : list SerialLine) :
  collect_calibration_data (Some lines) = Some (readings lines).
Proof. unfold collect_calibration_data. now rewrite fold_collect_step. Qed.

(** X1.  [main] starts live tracking only with calibration parameters it
    has: either those of the calibration file, which the user accepted and
    which stays as it was, or those fitted from the well-formed lines of the
    collection, at least 50 of them, which are then also what the file holds.
    Tracking runs on the lines of the port opened for it. *)
Theorem main_tracks_with_fitted_or_loaded_parameters
    (lstsq : list Vec6 -> list R -> Vec6) (eigh : Mat3 -> Vec3 * Mat3)
    (i : MainInput) (offset : Vec3) (matrix : Mat3)
    (outcome : option (list Vec3 * TrackingEnd)) :
  fst (main lstsq eigh i) = Tracked offset matrix outcome ->
  start_live i = true
  /\ (exists capture_lines tracking_lines,
        tracking_port i = Some (capture_lines, tracking_lines)
        /\ outcome = live_tracking_demo offset matrix capture_lines tracking_lines)
  /\ ((file_before i = Some (offset, matrix) /\ use_existing i = true
       /\ snd (main lstsq eigh i) = file_before i)
      \/ (exists lines,
            collection_port i = Some lines
            /\ (50 <= length (readings lines))%nat
            /\ offset = hard_iron_offset (readings lines)
            /\ matrix = soft_iron lstsq eigh (readings lines) offset
            /\ snd (main lstsq eigh i) = Some (offset, matrix))).
Proof.
  intros Hend.
  assert (Hlive : forall o m, live_stage i o m = Tracked offset matrix outcome ->
            o = offset /\ m = matrix /\ start_live i = true
            /\ exists capture_lines tracking_lines,
                 tracking_port i = Some (capture_lines, tracking_lines)
                 /\ outcome = live_tracking_demo offset matrix capture_lines tracking_lines).
  { intros o m H. unfold live_stage in H.
    destruct (start_live i); [|discriminate].
    destruct (tracking_port i) as [[cl tl]|]; [|discriminate].
    injection H as -> -> <-. repeat split. now exists cl, tl. }
  unfold main in *.
  destruct (file_before i) as [[o m]|] eqn:Ef.
  - destruct (use_existing i) eqn:Eu.
    + simpl in Hend. apply Hlive in Hend as (-> & -> & Hs & Hp).
      split; [exact Hs|]. split; [exact Hp|]. left. auto.
    + destruct (collection_port i) as [lines|] eqn:Ec; [|discriminate].
      rewrite collect_calibration_data_eq in *.
      unfold calculate_and_save_calibration in *.
      destruct (length (readings lines) <? 50)%nat eqn:El; [discriminate|].
      simpl in Hend. apply Hlive in Hend as (Ho & Hm & Hs & Hp).
      split; [exact Hs|]. split; [exact Hp|]. right.
      exists lines. apply Nat.ltb_ge in El. simpl. subst. auto.
  - destruct (collection_port i) as [lines|] eqn:Ec; [|discriminate].
    rewrite collect_calibration_data_eq in *.
    unfold calculate_and_save_calibration in *.
    destruct (length (readings lines) <? 50)%nat eqn:El; [discriminate|].
    simpl in Hend. apply Hlive in Hend as (Ho & Hm & Hs & Hp).
    split; [exact Hs|]. split; [exact Hp|]. right.
    exists lines. apply Nat.ltb_ge in El. simpl. subst. auto.
Qed.

(** A first run: no file, sixty well-formed lines, tracking accepted. *)
Lemma main_tracks_with_fitted_or_loaded_parameters_witness :
  let i := mkInput None false (Some sixty_line_port) true
             (Some ([Reading (V3 2 2 2)], [Reading (V3 5 6 7)])) in
  exists offset matrix outcome,
    fst (main sphere_lstsq identity_eigh i) = Tracked offset matrix outcome
    /\ start_live i = true
    /\ snd (main sphere_lstsq identity_eigh i) = Some (offset, matrix).
Proof.
  intros i.
  pose (offset := hard_iron_offset (readings sixty_line_port)).
  pose (matrix := soft_iron sphere_lstsq identity_eigh (readings sixty_line_port) offset).
  exists offset, matrix,
    (live_tracking_demo offset matrix [Reading (V3 2 2 2)] [Reading (V3 5 6 7)]).
  assert (H : fst (main sphere_lstsq identity_eigh i)
              = Tracked offset matrix
                  (live_tracking_demo offset matrix [Reading (V3 2 2 2)] [Reading (V3 5 6 7)]))
    by reflexivity.
  split; [exact H|].
  destruct (main_tracks_with_fitted_or_loaded_parameters sphere_lstsq identity_eigh i H)
    as (Hs & _ & [(Hf & _)|(lines & _ & _ & _ & _ & Hfile)]).
  - discriminate Hf.
  - split; [exact Hs|exact Hfile].
Defined.

(** X2.  When no file is loaded and the collection delivers fewer than 50
    well-formed lines, [main] does not reach its exit "Could not obtain
    calibration parameters": the fit returns [(None, None)], the plot is
    called with them all the same and raises, and the calibration file is as
    it was.  That exit is reached exactly when no file is loaded and the
    serial port cannot be opened for the collection. *)
Theorem main_short_collection_raises_in_plot
    (lstsq : list Vec6 -> list R -> Vec6) (eigh : Mat3 -> Vec3 * Mat3)
    (i : MainInput) :
  let loaded := match file_before i with
                | Some _ => use_existing i
                | None => false
                end in
  (forall lines,
     loaded = false -> collection_port i = Some lines ->
     (length (readings lines) < 50)%nat ->
     main lstsq eigh i = (PlotRaised, file_before i))
  /\ (fst (main lstsq eigh i) = NoParameters <->
      loaded = false /\ collection_port i = None).
Proof.
  intros loaded. subst loaded. unfold main. split.
  - intros lines Hl Hc Hlt. rewrite Hc, collect_calibration_data_eq.
    unfold calculate_and_save_calibration.
    apply Nat.ltb_lt in Hlt. rewrite Hlt.
    destruct (file_before i) as [[o m]|]; [rewrite Hl|]; reflexivity.
  - assert (Hlive : forall o m, live_stage i o m <> NoParameters).
    { intros o m. unfold live_stage.
      destruct (start_live i); [|discriminate].
      destruct (tracking_port i) as [[cl tl]|]; discriminate. }
    assert (Hfit : forall lines f,
              fst (let '(params, file) :=
                     calculate_and_save_calibration lstsq eigh f (Some (readings lines)) in
                   match visualize_calibration (readings lines) params with
                   | None => (PlotRaised, file)
                   | Some _ =>
                       match params with
                       | None => (NoParameters, file)
                       | Some (offset, matrix) => (live_stage i offset matrix, file)
                       end
                   end) <> NoParameters).
    { intros lines f. unfold calculate_and_save_calibration.
      destruct (length (readings lines) <? 50)%nat; simpl; [discriminate|apply Hlive]. }
    destruct (file_before i) as [[o m]|].
    + destruct (use_existing i).
      * simpl. split; [intros H; now apply Hlive in H|intros (H & _); discriminate].
      * destruct (collection_port i) as [lines|].
        -- rewrite collect_calibration_data_eq.
           split; [intros H; now apply Hfit in H|intros (_ & H); discriminate].
        -- simpl. tauto.
    + destruct (collection_port i) as [lines|].
      * rewrite collect_calibration_data_eq.
        split; [intros H; now apply Hfit in H|intros (_ & H); discriminate].
      * simpl. tauto.
Qed.

(** Three well-formed lines: the run ends in the plot. *)
Lemma main_short_collection_raises_in_plot_witness :
  (length (readings three_line_port) < 50)%nat
  /\ main sphere_lstsq identity_eigh (mkInput None false (Some three_line_port) true None)
     = (PlotRaised, None).
Proof.
  assert (H : (length (readings three_line_port) < 50)%nat) by (simpl; lia).
  split; [exact H|].
  exact (proj1 (main_short_collection_raises_in_plot sphere_lstsq identity_eigh
                  (mkInput None false (Some three_line_port) true None))
           three_line_port eq_refl eq_refl H).
Defined.

(** ** Live tracking: what the deltas depend on *)

Lemma track_deltas_full (offset : Vec3) (matrix : Mat3) (baseline : Vec3)
    (lines : list SerialLine) :
  track_deltas offset matrix baseline lines
  = (map (fun raw => vsub (calibrated raw offset matrix) baseline)
         (readings_before_garbled lines),
     tracking_end lines).
Proof.
  induction lines as [|line rest IH]; simpl; [reflexivity|].
  destruct line; simpl; [assumption|reflexivity|].
  now rewrite IH.
Qed.

Lemma total_map (f : Vec3 -> R) (g : Vec3 -> Vec3) (l : list Vec3) :
  total f (map g l) = total (fun r => f (g r)) l.
Proof. induction l as [|r rest IH]; simpl; [reflexivity|now rewrite IH]. Qed.

Lemma total_affine (a b c d : R) (l : list Vec3) :
  total (fun r => a * vx r + b * vy r + c * vz r + d) l
  = a * total vx l + b * total vy l + c * total vz l + d * INR (length l).
Proof.
  induction l as [|r rest IH].
  - simpl. ring.
  - cbn [total length]. rewrite IH, S_INR. ring.
Qed.

Lemma total_ext (f g : Vec3 -> R) (l : list Vec3) :
  (forall r, f r = g r) -> total f l = total g l.
Proof. intros H. induction l as [|r rest IH]; simpl; [reflexivity|now rewrite H, IH]. Qed.

(** The mean of the calibrated readings is the calibrated mean reading. *)
Lemma mean_of_calibrated (offset : Vec3) (matrix : Mat3) (refs : list Vec3) :
  refs <> [] ->
  mean_axis0 (map (fun raw => calibrated raw offset matrix) refs)
  = calibrated (mean_axis0 refs) offset matrix.
Proof.
  intros Hne.
  assert (INR (length refs) <> 0) as Hn.
  { apply not_0_INR. destruct refs; [congruence|discriminate]. }
  unfold mean_axis0, vsum. rewrite !fold_vadd, length_map, !total_map.
  destruct matrix as [[m00 m01 m02] [m10 m11 m12] [m20 m21 m22]].
  destruct offset as [ox oy oz].
  rewrite (total_ext (fun r => vx (calibrated r (V3 ox oy oz) _))
             (fun r => m00 * vx r + m10 * vy r + m20 * vz r
                       + - (ox * m00 + oy * m10 + oz * m20)))
    by (intros r; simpl; ring).
  rewrite (total_ext (fun r => vy (calibrated r (V3 ox oy oz) _))
             (fun r => m01 * vx r + m11 * vy r + m21 * vz r
                       + - (ox * m01 + oy * m11 + oz * m21)))
    by (intros r; simpl; ring).
  rewrite (total_ext (fun r => vz (calibrated r (V3 ox oy oz) _))
             (fun r => m02 * vx r + m12 * vy r + m22 * vz r
                       + - (ox * m02 + oy * m12 + oz * m22)))
    by (intros r; simpl; ring).
  rewrite !total_affine.
  apply vec3_eq; simpl; field; assumption.
Qed.

(** X4.  When the capture yields a reading, each field delta is the raw
    reading minus the mean raw reading of the capture, times the matrix: the
    hard-iron offset cancels, so the deltas and the way tracking ends are the
    same for every offset. *)
Theorem field_delta_is_free_of_the_offset
    (offset : Vec3) (matrix : Mat3) (capture_lines tracking_lines : list SerialLine) :
  readings capture_lines <> [] ->
  live_tracking_demo offset matrix capture_lines tracking_lines
  = Some (map (fun raw => vecmat (vsub raw (mean_axis0 (readings capture_lines))) matrix)
              (readings_before_garbled tracking_lines),
          tracking_end tracking_lines)
  /\ forall offset',
       live_tracking_demo offset' matrix capture_lines tracking_lines
       = live_tracking_demo offset matrix capture_lines tracking_lines.
Proof.
  intros Hne.
  assert (Hform : forall o,
            live_tracking_demo o matrix capture_lines tracking_lines
            = Some (map (fun raw => vecmat (vsub raw (mean_axis0 (readings capture_lines)))
                                      matrix)
                        (readings_before_garbled tracking_lines),
                    tracking_end tracking_lines)).
  { intros o. unfold live_tracking_demo. rewrite capture_reference_eq.
    destruct (map (fun raw => calibrated raw o matrix) (readings capture_lines))
      as [|r0 rest] eqn:E.
    { destruct (readings capture_lines); [congruence|discriminate]. }
    rewrite <- E, mean_of_calibrated, track_deltas_full by assumption.
    f_equal. f_equal. apply map_ext. intros raw.
    destruct matrix as [[m00 m01 m02] [m10 m11 m12] [m20 m21 m22]].
    apply vec3_eq; simpl; unfold dot; simpl; ring. }
  split; [apply Hform|]. intros offset'. now rewrite !Hform.
Qed.

Lemma field_delta_is_free_of_the_offset_witness :
  let capture_lines := [Reading (V3 2 2 2); Skipped; Garbled; Reading (V3 4 4 4)] in
  let tracking_lines := [Reading (V3 5 6 7); Skipped; Reading (V3 3 3 3); Garbled] in
  readings capture_lines <> []
  /\ live_tracking_demo (V3 9 8 7) identity capture_lines tracking_lines
     = live_tracking_demo (V3 1 1 1) identity capture_lines tracking_lines.
Proof.
  intros capture_lines tracking_lines.
  assert (H : readings capture_lines <> []) by discriminate.
  split; [exact H|].
  exact (proj2 (@field_delta_is_free_of_the_offset (V3 1 1 1) identity capture_lines
                  tracking_lines H)
           (V3 9 8 7)).
Defined.

Lemma tracking_end_raised (lines : list SerialLine) :
  tracking_end lines = Raised <-> In Garbled lines.
Proof.
  induction lines as [|line rest IH]; simpl.
  - split; [discriminate|tauto].
  - destruct line.
    + rewrite IH. split; [tauto|intros [H|H]; [discriminate|assumption]].
    + split; auto.
    + rewrite IH. split; [tauto|intros [H|H]; [discriminate|assumption]].
Qed.

Lemma readings_before_garbled_le (lines : list SerialLine) :
  (length (readings_before_garbled lines) <= length (readings lines))%nat.
Proof.
  induction lines as [|line rest IH]; simpl; [lia|].
  destruct line; simpl; lia.
Qed.

Lemma readings_before_garbled_all (lines : list SerialLine) :
  ~ In Garbled lines -> readings_before_garbled lines = readings lines.
Proof.
  induction lines as [|line rest IH]; simpl; [reflexivity|].
  intros Hno. destruct line; [apply IH; tauto|tauto|].
  rewrite IH; [reflexivity|tauto].
Qed.

(** X5.  A garbled line is harmless during the capture and fatal during
    tracking.  [live_tracking_demo] gives up before tracking exactly when the
    capture holds no well-formed line, whatever else it holds; once tracking,
    the loop raises exactly when a garbled line arrives, the readings after
    that line yield no delta, and without one every reading yields a delta. *)
Theorem garbled_lines_in_capture_and_tracking
    (offset : Vec3) (matrix : Mat3) (capture_lines tracking_lines : list SerialLine) :
  (live_tracking_demo offset matrix capture_lines tracking_lines = None
   <-> readings capture_lines = [])
  /\ forall deltas ending,
       live_tracking_demo offset matrix capture_lines tracking_lines
       = Some (deltas, ending) ->
       (ending = Raised <-> In Garbled tracking_lines)
       /\ length deltas = length (readings_before_garbled tracking_lines)
       /\ (length deltas <= length (readings tracking_lines))%nat
       /\ (~ In Garbled tracking_lines -> length deltas = length (readings tracking_lines)).
Proof.
  unfold live_tracking_demo. rewrite capture_reference_eq.
  destruct (readings capture_lines) as [|r0 rest] eqn:E; simpl.
  - split; [tauto|]. intros deltas ending H. discriminate.
  - split; [split; discriminate|].
    intros deltas ending H. rewrite track_deltas_full in H.
    injection H as <- <-. rewrite length_map.
    split; [apply tracking_end_raised|]. split; [reflexivity|].
    split; [apply readings_before_garbled_le|].
    intros Hno. now rewrite readings_before_garbled_all.
Qed.

(** ** The fit under a constant bias *)

Lemma fold_Rmin_shift (c : R) (l : list R) (a : R) :
  fold_left Rmin (map (fun r => r + c) l) (a + c) = fold_left Rmin l a + c.
Proof.
  revert a. induction l as [|h t IH]; intros a; simpl; [reflexivity|].
  rewrite <- IH. f_equal. unfold Rmin.
  destruct (Rle_dec (a + c) (h + c)), (Rle_dec a h); lra.
Qed.

Lemma fold_Rmax_shift (c : R) (l : list R) (a : R) :
  fold_left Rmax (map (fun r => r + c) l) (a + c) = fold_left Rmax l a + c.
Proof.
  revert a. induction l as [|h t IH]; intros a; simpl; [reflexivity|].
  rewrite <- IH. f_equal. unfold Rmax.
  destruct (Rle_dec (a + c) (h + c)), (Rle_dec a h); lra.
Qed.

Lemma np_min_shift (c : R) (l : list R) :
  l <> [] -> np_min (map (fun r => r + c) l) = np_min l + c.
Proof. destruct l as [|a t]; [congruence|]. intros _. apply fold_Rmin_shift. Qed.

Lemma np_max_shift (c : R) (l : list R) :
  l <> [] -> np_max (map (fun r => r + c) l) = np_max l + c.
Proof. destruct l as [|a t]; [congruence|]. intros _. apply fold_Rmax_shift. Qed.

Lemma column_of_shift (f : Vec3 -> R) (b : Vec3) (rows : list Vec3) :
  (forall p, f (vadd p b) = f p + f b) ->
  map f (shift b rows) = map (fun r => r + f b) (map f rows).
Proof. intros Hf. unfold shift. rewrite !map_map. apply map_ext. intros p. apply Hf. Qed.

Lemma extremes_of_shift (b : Vec3) (rows : list Vec3) :
  rows <> [] ->
  min_axis0 (shift b rows) = vadd (min_axis0 rows) b
  /\ max_axis0 (shift b rows) = vadd (max_axis0 rows) b.
Proof.
  intros Hne.
  assert (Hcol : forall f : Vec3 -> R, map f rows <> []).
  { intros f E. apply map_eq_nil in E. contradiction. }
  unfold min_axis0, max_axis0.
  rewrite !(column_of_shift vx), !(column_of_shift vy), !(column_of_shift vz)
    by reflexivity.
  rewrite !np_min_shift, !np_max_shift by apply Hcol.
  split; reflexivity.
Qed.

Lemma hard_iron_offset_shift (b : Vec3) (rows : list Vec3) :
  rows <> [] -> hard_iron_offset (shift b rows) = vadd (hard_iron_offset rows) b.
Proof.
  intros Hne. unfold hard_iron_offset.
  destruct (extremes_of_shift b Hne) as [-> ->].
  apply vec3_eq; simpl; lra.
Qed.

Lemma center_shift (b offset : Vec3) (rows : list Vec3) :
  center (shift b rows) (vadd offset b) = center rows offset.
Proof.
  unfold center, shift. rewrite map_map. apply map_ext.
  intros p. apply vec3_eq; simpl; ring.
Qed.

Lemma center_as_shift (offset : Vec3) (rows : list Vec3) :
  center rows offset = shift (vscale (-1) offset) rows.
Proof.
  unfold center, shift. apply map_ext. intros p. apply vec3_eq; simpl; ring.
Qed.

(** X6.  A constant bias added to every sample moves the fitted offset by
    that bias and leaves the transform as it is: the hard-iron offset absorbs
    the whole bias. *)
Theorem fit_absorbs_a_constant_bias
    (lstsq : list Vec6 -> list R -> Vec6) (eigh : Mat3 -> Vec3 * Mat3)
    (file : CalibrationFile) (rows : list Vec3) (b : Vec3) :
  (50 <= length rows)%nat ->
  exists offset transform,
    calculate_and_save_calibration lstsq eigh file (Some rows)
    = (Some (offset, transform), Some (offset, transform))
    /\ calculate_and_save_calibration lstsq eigh file (Some (shift b rows))
       = (Some (vadd offset b, transform), Some (vadd offset b, transform)).
Proof.
  intros Hlen.
  assert (Hne : rows <> []) by (intros ->; simpl in Hlen; lia).
  exists (hard_iron_offset rows), (soft_iron lstsq eigh rows (hard_iron_offset rows)).
  split; [now apply calculate_accepts|].
  rewrite calculate_accepts by (unfold shift; rewrite length_map; assumption).
  rewrite hard_iron_offset_shift by assumption.
  assert (soft_iron lstsq eigh (shift b rows) (vadd (hard_iron_offset rows) b)
          = soft_iron lstsq eigh rows (hard_iron_offset rows)) as ->.
  { unfold soft_iron. now rewrite center_shift. }
  reflexivity.
Qed.

Lemma fit_absorbs_a_constant_bias_witness :
  (50 <= length two_point_sweep)%nat
  /\ exists offset transform,
       calculate_and_save_calibration sphere_lstsq identity_eigh None (Some two_point_sweep)
       = (Some (offset, transform), Some (offset, transform))
       /\ calculate_and_save_calibration sphere_lstsq identity_eigh None
            (Some (shift (V3 10 20 30) two_point_sweep))
          = (Some (vadd offset (V3 10 20 30), transform),
             Some (vadd offset (V3 10 20 30), transform)).
Proof.
  assert (H : (50 <= length two_point_sweep)%nat) by (simpl; lia).
  split; [exact H|].
  exact (@fit_absorbs_a_constant_bias sphere_lstsq identity_eigh None two_point_sweep
           (V3 10 20 30) H).
Defined.

(** X7.  After the offset is taken away the samples are balanced on every
    axis: the least value is minus the greatest, the greatest is half the
    original range, and the hard-iron offset of the centred samples is 0, so
    centring a second time changes nothing. *)
Theorem centred_samples_are_balanced (rows : list Vec3) :
  rows <> [] ->
  let centered_data := center rows (hard_iron_offset rows) in
  min_axis0 centered_data = vscale (-1) (max_axis0 centered_data)
  /\ max_axis0 centered_data = vdiv (vsub (max_axis0 rows) (min_axis0 rows)) 2
  /\ hard_iron_offset centered_data = vzero
  /\ center centered_data (hard_iron_offset centered_data) = centered_data.
Proof.
  intros Hne centered_data. subst centered_data.
  assert (Hoff : hard_iron_offset (center rows (hard_iron_offset rows)) = vzero).
  { rewrite center_as_shift, hard_iron_offset_shift by assumption.
    apply vec3_eq; simpl; ring. }
  split; [|split; [|split]].
  - rewrite center_as_shift.
    destruct (extremes_of_shift (vscale (-1) (hard_iron_offset rows)) Hne) as [-> ->].
    unfold hard_iron_offset. apply vec3_eq; simpl; lra.
  - rewrite center_as_shift.
    destruct (extremes_of_shift (vscale (-1) (hard_iron_offset rows)) Hne) as [_ ->].
    unfold hard_iron_offset. apply vec3_eq; simpl; lra.
  - exact Hoff.
  - rewrite Hoff. apply center_zero.
Qed.

Lemma centred_samples_are_balanced_witness :
  two_point_sweep <> []
  /\ hard_iron_offset (center two_point_sweep (hard_iron_offset two_point_sweep)) = vzero.
Proof.
  assert (H : two_point_sweep <> []) by discriminate.
  split; [exact H|].
  exact (proj1 (proj2 (proj2 (centred_samples_are_balanced H)))).
Defined.

(** ** Calibrated samples and the fitted surface *)

Lemma norm_of_vecmat (p : Vec3) (s : Mat3) :
  dot (vecmat p s) (vecmat p s) = dot p (matvec (matmul s (transpose s)) p).
Proof. destruct p, s as [[] [] []]. unfold_arrays. ring. Qed.

(** X8.  With an eigendecomposition that has no negative eigenvalue, the
    squared length of a calibrated reading is the fitted quadratic form at
    the reading minus the offset; so the plot's calibrated samples that lie on
    the fitted surface (where the form is 1) lie on the unit sphere. *)
Theorem calibrated_length_is_fitted_form
    (lstsq : list Vec6 -> list R -> Vec6) (eigh : Mat3 -> Vec3 * Mat3)
    (file : CalibrationFile) (rows : list Vec3) :
  (50 <= length rows)%nat ->
  let offset := hard_iron_offset rows in
  let centered_data := center rows offset in
  let v := lstsq (design_matrix centered_data) (ones (length centered_data)) in
  eigendecomposition (assemble v) (eigh (assemble v)) ->
  nonneg3 (fst (eigh (assemble v))) ->
  exists transform calibrated_data,
    calculate_and_save_calibration lstsq eigh file (Some rows)
    = (Some (offset, transform), Some (offset, transform))
    /\ (forall raw,
          dot (apply_calibration raw offset transform)
              (apply_calibration raw offset transform)
          = quadric v (vsub raw offset))
    /\ visualize_calibration rows (Some (offset, transform)) = Some calibrated_data
    /\ (fit_error centered_data v = 0 -> forall q, In q calibrated_data -> dot q q = 1).
Proof.
  intros Hlen offset centered_data v Hdec Hpos.
  set (transform := matmul (matmul (snd (eigh (assemble v)))
                              (diag (vmap sqrt (fst (eigh (assemble v))))))
                      (transpose (snd (eigh (assemble v))))).
  assert (Hnorm : forall raw,
            dot (apply_calibration raw offset transform)
                (apply_calibration raw offset transform)
            = quadric v (vsub raw offset)).
  { intros raw. unfold apply_calibration. rewrite norm_of_vecmat.
    pose proof (conjugated_diag_symmetric (snd (eigh (assemble v)))
                  (vmap sqrt (fst (eigh (assemble v))))) as Hsym.
    unfold symmetric in Hsym. fold transform in Hsym. rewrite Hsym.
    assert (matmul transform transform = assemble v) as ->.
    { apply root_squares_to_matrix; [|assumption].
      now destruct (eigh (assemble v)). }
    symmetry. apply quadric_is_form. }
  exists transform, (map (fun row => vecmat (vsub row offset) transform) rows).
  split.
  { rewrite calculate_accepts by assumption. fold offset.
    now rewrite soft_iron_eq. }
  split; [exact Hnorm|]. split; [reflexivity|].
  intros Hexact q Hq. apply in_map_iff in Hq. destruct Hq as (raw & <- & Hraw).
  change (vecmat (vsub raw offset) transform) with (apply_calibration raw offset transform).
  rewrite Hnorm. apply (proj1 (fit_error_zero _ _) Hexact).
  unfold centered_data, center. now apply (in_map (fun p => vsub p offset)).
Qed.

Lemma calibrated_length_is_fitted_form_witness :
  (50 <= length sphere_sweep)%nat
  /\ exists transform calibrated_data,
       calculate_and_save_calibration sphere_lstsq identity_eigh None (Some sphere_sweep)
       = (Some (hard_iron_offset sphere_sweep, transform),
          Some (hard_iron_offset sphere_sweep, transform))
       /\ (forall raw,
             dot (apply_calibration raw (hard_iron_offset sphere_sweep) transform)
                 (apply_calibration raw (hard_iron_offset sphere_sweep) transform)
             = quadric (V6 1 1 1 0 0 0) (vsub raw (hard_iron_offset sphere_sweep)))
       /\ visualize_calibration sphere_sweep
            (Some (hard_iron_offset sphere_sweep, transform)) = Some calibrated_data.
Proof.
  assert (H : (50 <= length sphere_sweep)%nat) by (simpl; lia).
  split; [exact H|].
  assert (Hdec : eigendecomposition (assemble (V6 1 1 1 0 0 0))
                   (identity_eigh (assemble (V6 1 1 1 0 0 0))))
    by (split; [split|]; simpl; mat_ring).
  assert (Hpos : nonneg3 (fst (identity_eigh (assemble (V6 1 1 1 0 0 0)))))
    by (unfold nonneg3; simpl; lra).
  destruct (@calibrated_length_is_fitted_form sphere_lstsq identity_eigh None sphere_sweep
              H Hdec Hpos) as (transform & calibrated_data & Hret & Hnorm & Hplot & _).
  exists transform, calibrated_data. repeat split; assumption.
Defined.

(** ** The progress bar of the collection *)

Lemma py_int_nonneg (r : R) :
  0 <= r -> (0 <= py_int r)%Z /\ IZR (py_int r) <= r < IZR (py_int r) + 1.
Proof.
  intros Hr. unfold py_int. destruct (Rle_dec 0 r) as [_|]; [|contradiction].
  destruct (base_Int_part r) as [Hle Hgt].
  split; [|lra].
  assert (-1 < IZR (Int_part r)) as Hlt by lra.
  apply lt_IZR in Hlt. lia.
Qed.

Lemma length_str_repeat {A : Type} (c : A) (n : Z) :
  length (str_repeat c n) = Z.to_nat n.
Proof. apply repeat_length. Qed.

(** X9.  While the elapsed time is below the duration the progress bar is
    exactly 20 characters wide.  When a read returns at or after the deadline
    the bar is [progress >= 20] hashes with no blank: it outgrows its 20
    columns once the elapsed time reaches 21/20 of the duration. *)
Theorem progress_bar_width (elapsed duration_s : R) :
  0 <= elapsed -> 0 < duration_s ->
  let progress := progress_of elapsed duration_s in
  (elapsed < duration_s ->
     (0 <= progress < 20)%Z /\ length (progress_bar progress) = 20%nat)
  /\ (duration_s <= elapsed ->
        (20 <= progress)%Z
        /\ progress_bar progress = str_repeat Hash progress
        /\ length (progress_bar progress) = Z.to_nat progress)
  /\ (21 / 20 * duration_s <= elapsed -> (20 < length (progress_bar progress))%nat).
Proof.
  intros He Hd progress.
  set (r := elapsed / duration_s * 20).
  assert (Hr : r * duration_s = elapsed * 20) by (unfold r; field; lra).
  assert (Hr0 : 0 <= r) by (apply Rnot_lt_le; intros Hneg; nra).
  destruct (py_int_nonneg Hr0) as (Hp0 & Hlo & Hhi).
  change (py_int r) with progress in Hp0, Hlo, Hhi.
  assert (Hlate : duration_s <= elapsed -> (20 <= progress)%Z).
  { intros Hle. assert (20 <= r) by (apply Rnot_lt_le; intros Hlt; nra).
    assert (IZR 19 < IZR progress) as Hz by lra. apply lt_IZR in Hz. lia. }
  assert (Hbar : (20 <= progress)%Z -> progress_bar progress = str_repeat Hash progress).
  { intros H20. unfold progress_bar, str_repeat.
    replace (Z.to_nat (20 - progress)) with 0%nat by lia.
    simpl. apply app_nil_r. }
  split; [|split].
  - intros Hlt. assert (r < 20) by (apply Rnot_le_lt; intros Hge; nra).
    assert (IZR progress < IZR 20) as Hz by lra. apply lt_IZR in Hz.
    split; [lia|]. unfold progress_bar.
    rewrite length_app, !length_str_repeat. lia.
  - intros Hle. pose proof (Hlate Hle) as H20.
    split; [exact H20|]. split; [now apply Hbar|].
    rewrite Hbar by assumption. apply length_str_repeat.
  - intros Hle. assert (21 <= r) by (apply Rnot_lt_le; intros Hlt; nra).
    assert (IZR 20 < IZR progress) as Hz by lra. apply lt_IZR in Hz.
    rewrite Hbar by lia. rewrite length_str_repeat. lia.
Qed.

(** Halfway through a 30-second collection the bar is 20 wide; a read that
    returns after 33 seconds leaves it wider. *)
Lemma progress_bar_width_witness :
  (0 <= 15 /\ 0 < 30 /\ 15 < 30)
  /\ length (progress_bar (progress_of 15 30)) = 20%nat
  /\ (20 < length (progress_bar (progress_of 33 30)))%nat.
Proof.
  split; [lra|]. split.
  - apply (proj1 (@progress_bar_width 15 30 ltac:(lra) ltac:(lra))). lra.
  - apply (proj2 (proj2 (@progress_bar_width 33 30 ltac:(lra) ltac:(lra)))). lra.
Defined.

(** ** The fitted transform, entry by entry *)

Lemma design_matrix_terms (rows : list Vec3) (offset : Vec3) :
  design_matrix (center rows offset) = map (fun p => ellipsoid_terms p offset) rows.
Proof. unfold design_matrix, center. rewrite map_map. reflexivity. Qed.

Lemma soft_iron_terms
    (lstsq : list Vec6 -> list R -> Vec6) (eigh : Mat3 -> Vec3 * Mat3)
    (rows : list Vec3) (offset : Vec3) :
  let M := form_matrix (lstsq (map (fun p => ellipsoid_terms p offset) rows)
                          (repeat 1 (length rows))) in
  soft_iron lstsq eigh rows offset
  = matmul (matmul (snd (eigh M)) (diag (vmap sqrt (fst (eigh M)))))
           (transpose (snd (eigh M))).
Proof.
  intros M. rewrite soft_iron_eq, design_matrix_terms.
  unfold center. rewrite length_map. reflexivity.
Qed.

Lemma root_entries (vals : Vec3) (vecs : Mat3) (i j : nat) :
  (i < 3)%nat -> (j < 3)%nat ->
  entry (matmul (matmul vecs (diag (vmap sqrt vals))) (transpose vecs)) i j
  = spectral_root_entry vals vecs i j.
Proof.
  intros Hi Hj. destruct vecs as [[] [] []], vals.
  destruct i as [|[|[|i]]]; [| | |lia]; destruct j as [|[|[|j]]]; try lia;
    unfold spectral_root_entry, entry, component; unfold_arrays; ring.
Qed.

Lemma root_entries_symmetric (vals : Vec3) (vecs : Mat3) (i j : nat) :
  entry (matmul (matmul vecs (diag (vmap sqrt vals))) (transpose vecs)) i j
  = entry (matmul (matmul vecs (diag (vmap sqrt vals))) (transpose vecs)) j i.
Proof.
  destruct vecs as [[] [] []], vals.
  destruct i as [|[|[|i]]]; destruct j as [|[|[|j]]];
    unfold entry, component; unfold_arrays; ring.
Qed.

Lemma form_matrix_symmetric (v : Vec6) (i j : nat) :
  entry (form_matrix v) i j = entry (form_matrix v) j i.
Proof. destruct i as [|[|[|i]]]; destruct j as [|[|[|j]]]; reflexivity. Qed.

Lemma residual_on_terms (rows : list Vec3) (offset : Vec3) (w : Vec6) :
  residual_ss (map (fun p => ellipsoid_terms p offset) rows) (repeat 1 (length rows)) w
  = fit_error (map (fun p => V3 (vx p - vx offset) (vy p - vy offset) (vz p - vz offset))
                 rows) w.
Proof.
  induction rows as [|p rest IH]; simpl; [reflexivity|].
  rewrite IH. f_equal. unfold dot6, ellipsoid_terms, quadric. simpl. ring.
Qed.

Lemma sqrt_of_square (a : R) : 0 <= a -> sqrt (a * a) = a.
Proof. apply sqrt_square. Qed.

Lemma ellipsoid_offset : hard_iron_offset ellipsoid_sweep = V3 1 2 3.
Proof.
  unfold hard_iron_offset, min_axis0, max_axis0, ellipsoid_sweep.
  rewrite (np_min_eq (m := 0)) by column_extreme (V3 0 2 3).
  rewrite (np_max_eq (m := 2)) by column_extreme (V3 2 2 3).
  rewrite (np_min_eq (m := 1.5)) by column_extreme (V3 1 1.5 3).
  rewrite (np_max_eq (m := 2.5)) by column_extreme (V3 1 2.5 3).
  rewrite (np_min_eq (m := 1)) by column_extreme (V3 1 2 1).
  rewrite (np_max_eq (m := 5)) by column_extreme (V3 1 2 5).
  apply vec3_eq; simpl; lra.
Qed.

Lemma ellipsoid_fit_exact (w : Vec6) :
  residual_ss (map (fun p => ellipsoid_terms p (V3 1 2 3)) ellipsoid_sweep)
    (repeat 1 (length ellipsoid_sweep)) (V6 1 4 0.25 0 0 0)
  <= residual_ss (map (fun p => ellipsoid_terms p (V3 1 2 3)) ellipsoid_sweep)
       (repeat 1 (length ellipsoid_sweep)) w.
Proof.
  rewrite !residual_on_terms.
  assert (fit_error
            (map (fun p => V3 (vx p - vx (V3 1 2 3)) (vy p - vy (V3 1 2 3))
                              (vz p - vz (V3 1 2 3))) ellipsoid_sweep)
            (V6 1 4 0.25 0 0 0) = 0) as ->.
  { apply fit_error_zero. intros q Hq. apply in_map_iff in Hq.
    destruct Hq as (p & <- & Hp). unfold ellipsoid_sweep in Hp.
    apply in_concat_repeat in Hp. simpl in Hp.
    repeat (destruct Hp as [<-|Hp]; [unfold quadric; simpl; lra|]). contradiction. }
  apply fit_error_nonneg.
Qed.

(** C4.  For a sample set of at least 50 points whose matrix [M] has no
    negative eigenvalue, the returned and saved transform is
    [Q sqrt(L) Q^T] entry by entry, [(L, Q)] being what [eigh] gives for the
    symmetric matrix [M] of the six coefficients [v] that [lstsq] fits to the
    ellipsoid terms of the samples minus the offset; the transform is
    symmetric; when [lstsq] returns a least-squares solution [v] minimises
    the squared distance of the centred samples from the surface, and when
    [(L, Q)] is an eigendecomposition of [M] the transform squares to [M]. *)
Theorem soft_iron_is_root_of_fitted_form
    (lstsq : list Vec6 -> list R -> Vec6) (eigh : Mat3 -> Vec3 * Mat3)
    (file : CalibrationFile) (rows : list Vec3) :
  (50 <= length rows)%nat ->
  let offset := hard_iron_offset rows in
  let D := map (fun p => ellipsoid_terms p offset) rows in
  let v := lstsq D (repeat 1 (length rows)) in
  let M := form_matrix v in
  let L := fst (eigh M) in
  let Q := snd (eigh M) in
  nonneg3 L ->
  exists transform,
    calculate_and_save_calibration lstsq eigh file (Some rows)
    = (Some (offset, transform), Some (offset, transform))
    /\ (forall i j, (i < 3)%nat -> (j < 3)%nat ->
          entry transform i j = spectral_root_entry L Q i j)
    /\ (forall i j, entry transform i j = entry transform j i)
    /\ (forall i j, entry M i j = entry M j i)
    /\ (forall x y z,
          x * (entry M 0 0 * x + entry M 0 1 * y + entry M 0 2 * z)
          + y * (entry M 1 0 * x + entry M 1 1 * y + entry M 1 2 * z)
          + z * (entry M 2 0 * x + entry M 2 1 * y + entry M 2 2 * z)
          = quadric v (V3 x y z))
    /\ (least_squares D (repeat 1 (length rows)) v ->
        forall w,
          fit_error (map (fun p => V3 (vx p - vx offset) (vy p - vy offset)
                                      (vz p - vz offset)) rows) v
          <= fit_error (map (fun p => V3 (vx p - vx offset) (vy p - vy offset)
                                         (vz p - vz offset)) rows) w)
    /\ (eigendecomposition M (L, Q) -> matmul transform transform = M).
Proof.
  intros Hlen offset D v M L Q Hpos.
  exists (matmul (matmul Q (diag (vmap sqrt L))) (transpose Q)).
  split.
  { rewrite calculate_accepts by assumption. fold offset.
    now rewrite soft_iron_terms. }
  split; [intros i j; apply root_entries|].
  split; [intros i j; apply root_entries_symmetric|].
  split; [intros i j; apply form_matrix_symmetric|].
  split.
  { intros x y z. unfold quadric, M, form_matrix, entry, component. simpl. ring. }
  split.
  { intros Hls w. specialize (Hls w). unfold D in Hls.
    now rewrite !residual_on_terms in Hls. }
  intros Hdec. now apply root_squares_to_matrix.
Qed.

(** The fit of the ellipsoid sweep, with the answers [lstsq] and [eigh] owe
    on it: the offset is the centre (1, 2, 3) and the transform is
    [diag(1, 2, 1/2)], the root of [diag(1, 4, 1/4)]. *)
Lemma soft_iron_is_root_of_fitted_form_witness :
  (50 <= length ellipsoid_sweep)%nat
  /\ nonneg3 (V3 0.25 1 4)
  /\ least_squares (map (fun p => ellipsoid_terms p (V3 1 2 3)) ellipsoid_sweep)
       (repeat 1 (length ellipsoid_sweep)) (V6 1 4 0.25 0 0 0)
  /\ eigendecomposition (form_matrix (V6 1 4 0.25 0 0 0))
       (V3 0.25 1 4, M3 (V3 0 1 0) (V3 0 0 1) (V3 1 0 0))
  /\ calculate_and_save_calibration ellipsoid_lstsq ellipsoid_eigh None (Some ellipsoid_sweep)
     = (Some (V3 1 2 3, diag (V3 1 2 0.5)), Some (V3 1 2 3, diag (V3 1 2 0.5))).
Proof.
  assert (H : (50 <= length ellipsoid_sweep)%nat) by (simpl; lia).
  assert (Hpos : nonneg3 (V3 0.25 1 4)) by (unfold nonneg3; simpl; lra).
  split; [exact H|]. split; [exact Hpos|].
  split; [exact ellipsoid_fit_exact|].
  split; [split; [split|]; simpl; mat_ring|].
  destruct (@soft_iron_is_root_of_fitted_form ellipsoid_lstsq ellipsoid_eigh None
              ellipsoid_sweep H Hpos) as (transform & Hret & Hent & _).
  rewrite Hret, ellipsoid_offset.
  assert (E025 : sqrt 0.25 = 0.5).
  { replace 0.25 with (0.5 * 0.5) by lra. apply sqrt_of_square. lra. }
  assert (E4 : sqrt 4 = 2).
  { replace 4 with (2 * 2) by lra. apply sqrt_of_square. lra. }
  assert (transform = diag (V3 1 2 0.5)) as ->.
  { apply mat3_eq; apply vec3_eq;
      match goal with
      | |- ?f (?r transform) = _ =>
          first [ change (f (r transform)) with (entry transform 0 0)
                | change (f (r transform)) with (entry transform 0 1)
                | change (f (r transform)) with (entry transform 0 2)
                | change (f (r transform)) with (entry transform 1 0)
                | change (f (r transform)) with (entry transform 1 1)
                | change (f (r transform)) with (entry transform 1 2)
                | change (f (r transform)) with (entry transform 2 0)
                | change (f (r transform)) with (entry transform 2 1)
                | change (f (r transform)) with (entry transform 2 2) ]
      end;
      rewrite Hent by lia; unfold spectral_root_entry, entry, component; simpl;
      rewrite E025, sqrt_1, E4; lra. }
  reflexivity.
Defined.

(** ** Samples confined to a plane normal to an axis *)

Lemma constant_column_centred (f : Vec3 -> R) (rows : list Vec3) :
  rows <> [] ->
  (forall p q, In p rows -> In q rows -> f p = f q) ->
  forall p, In p rows ->
    f p - (np_max (map f rows) + np_min (map f rows)) / 2.0 = 0.
Proof.
  intros Hne Hconst p Hp.
  assert (Hm : map f rows <> []) by (destruct rows; [congruence|discriminate]).
  destruct (np_max_is_max Hm) as (Hmax & _).
  destruct (np_min_is_min Hm) as (Hmin & _).
  apply in_map_iff in Hmax. destruct Hmax as (q & <- & Hq).
  apply in_map_iff in Hmin. destruct Hmin as (r & <- & Hr).
  rewrite <- (Hconst p q Hp Hq), <- (Hconst p r Hp Hr). lra.
Qed.

(** The coefficients that multiply coordinate [k] in the ellipsoid
    equation: [A, D, E] for x, [B, D, F] for y and [C, E, F] for z. *)
Lemma planar_terms (rows : list Vec3) (k : nat) :
  rows <> [] ->
  (forall p q, In p rows -> In q rows -> component p k = component q k) ->
  forall row, In row (map (fun p => ellipsoid_terms p (hard_iron_offset rows)) rows) ->
    match k with
    | 0%nat => c0 row = 0 /\ c3 row = 0 /\ c4 row = 0
    | 1%nat => c1 row = 0 /\ c3 row = 0 /\ c5 row = 0
    | _ => c2 row = 0 /\ c4 row = 0 /\ c5 row = 0
    end.
Proof.
  intros Hne Hconst row Hrow. apply in_map_iff in Hrow.
  destruct Hrow as (p & <- & Hp).
  destruct k as [|[|k]].
  - pose proof (constant_column_centred vx Hne Hconst p Hp) as Hz.
    unfold ellipsoid_terms, hard_iron_offset, min_axis0, max_axis0, vdiv, vadd.
    simpl. rewrite Hz. repeat split; ring.
  - pose proof (constant_column_centred vy Hne Hconst p Hp) as Hz.
    unfold ellipsoid_terms, hard_iron_offset, min_axis0, max_axis0, vdiv, vadd.
    simpl. rewrite Hz. repeat split; ring.
  - pose proof (constant_column_centred vz Hne Hconst p Hp) as Hz.
    unfold ellipsoid_terms, hard_iron_offset, min_axis0, max_axis0, vdiv, vadd.
    simpl. rewrite Hz. repeat split; ring.
Qed.

Lemma residual_ss_ext (D : list Vec6) (b : list R) (w w' : Vec6) :
  (forall row, In row D -> dot6 row w = dot6 row w') ->
  residual_ss D b w = residual_ss D b w'.
Proof.
  revert b. induction D as [|row D IH]; intros b Hrows; [reflexivity|].
  destruct b as [|bi b]; [reflexivity|]. simpl.
  rewrite (Hrows row) by now left.
  rewrite (IH b) by (intros r Hr; apply Hrows; now right). reflexivity.
Qed.

(** A least-squares solution of least norm stays one when it is compared
    with a vector that every row of the system treats alike. *)
Lemma least_norm_against (D : list Vec6) (b : list R) (v v' : Vec6) :
  (forall row, In row D -> dot6 row v' = dot6 row v) ->
  least_squares D b v ->
  (forall w, least_squares D b w -> dot6 v v <= dot6 w w) ->
  dot6 v v <= dot6 v' v'.
Proof.
  intros Hsame Hls Hnorm. apply Hnorm.
  intros w. rewrite (@residual_ss_ext D b v' v Hsame). apply Hls.
Qed.

(** The least-squares solution of least norm puts nothing on the
    coefficients of a coordinate that is constant over the samples: the row
    and the column [k] of the fitted matrix are zero. *)
Lemma planar_form_matrix (rows : list Vec3) (v : Vec6) (k : nat) :
  rows <> [] -> (k < 3)%nat ->
  (forall p q, In p rows -> In q rows -> component p k = component q k) ->
  least_squares (map (fun p => ellipsoid_terms p (hard_iron_offset rows)) rows)
    (repeat 1 (length rows)) v ->
  (forall w,
     least_squares (map (fun p => ellipsoid_terms p (hard_iron_offset rows)) rows)
       (repeat 1 (length rows)) w ->
     dot6 v v <= dot6 w w) ->
  forall i, (i < 3)%nat ->
    entry (form_matrix v) i k = 0 /\ entry (form_matrix v) k i = 0.
Proof.
  intros Hne Hk Hconst Hls Hnorm.
  pose proof (planar_terms k Hne Hconst) as Hcols.
  destruct k as [|[|[|k]]]; [| | |lia].
  - assert (Hle : dot6 v v
                  <= dot6 (V6 0 (c1 v) (c2 v) 0 0 (c5 v)) (V6 0 (c1 v) (c2 v) 0 0 (c5 v))).
    { apply (least_norm_against (D := map (fun p => ellipsoid_terms p (hard_iron_offset rows))
                                       rows)
               (b := repeat 1 (length rows))); [|assumption|assumption].
      intros row Hrow. destruct (Hcols row Hrow) as (Ha & Hb & Hc).
      unfold dot6. simpl. rewrite Ha, Hb, Hc. ring. }
    unfold dot6 in Hle. simpl in Hle.
    pose proof (Rle_0_sqr (c0 v)). pose proof (Rle_0_sqr (c3 v)).
    pose proof (Rle_0_sqr (c4 v)). unfold Rsqr in *.
    assert (c0 v = 0) by nra. assert (c3 v = 0) by nra. assert (c4 v = 0) by nra.
    intros i Hi. destruct i as [|[|[|i]]]; [| | |lia];
      unfold form_matrix, entry, component; simpl; split; assumption.
  - assert (Hle : dot6 v v
                  <= dot6 (V6 (c0 v) 0 (c2 v) 0 (c4 v) 0) (V6 (c0 v) 0 (c2 v) 0 (c4 v) 0)).
    { apply (least_norm_against (D := map (fun p => ellipsoid_terms p (hard_iron_offset rows))
                                       rows)
               (b := repeat 1 (length rows))); [|assumption|assumption].
      intros row Hrow. destruct (Hcols row Hrow) as (Ha & Hb & Hc).
      unfold dot6. simpl. rewrite Ha, Hb, Hc. ring. }
    unfold dot6 in Hle. simpl in Hle.
    pose proof (Rle_0_sqr (c1 v)). pose proof (Rle_0_sqr (c3 v)).
    pose proof (Rle_0_sqr (c5 v)). unfold Rsqr in *.
    assert (c1 v = 0) by nra. assert (c3 v = 0) by nra. assert (c5 v = 0) by nra.
    intros i Hi. destruct i as [|[|[|i]]]; [| | |lia];
      unfold form_matrix, entry, component; simpl; split; assumption.
  - assert (Hle : dot6 v v
                  <= dot6 (V6 (c0 v) (c1 v) 0 (c3 v) 0 0) (V6 (c0 v) (c1 v) 0 (c3 v) 0 0)).
    { apply (least_norm_against (D := map (fun p => ellipsoid_terms p (hard_iron_offset rows))
                                       rows)
               (b := repeat 1 (length rows))); [|assumption|assumption].
      intros row Hrow. destruct (Hcols row Hrow) as (Ha & Hb & Hc).
      unfold dot6. simpl. rewrite Ha, Hb, Hc. ring. }
    unfold dot6 in Hle. simpl in Hle.
    pose proof (Rle_0_sqr (c2 v)). pose proof (Rle_0_sqr (c4 v)).
    pose proof (Rle_0_sqr (c5 v)). unfold Rsqr in *.
    assert (c2 v = 0) by nra. assert (c4 v = 0) by nra. assert (c5 v = 0) by nra.
    intros i Hi. destruct i as [|[|[|i]]]; [| | |lia];
      unfold form_matrix, entry, component; simpl; split; assumption.
Qed.

(** A symmetric matrix whose square has a zero in a diagonal place has a
    zero column there. *)
Lemma symmetric_root_column (s m : Mat3) (k : nat) :
  (k < 3)%nat ->
  (forall i j, entry s i j = entry s j i) ->
  matmul s s = m -> entry m k k = 0 ->
  forall i, (i < 3)%nat -> entry s i k = 0.
Proof.
  intros Hk Hsym Hsq Hm. rewrite <- Hsq in Hm.
  pose proof (Hsym 0%nat 1%nat) as H01. pose proof (Hsym 0%nat 2%nat) as H02.
  pose proof (Hsym 1%nat 2%nat) as H12.
  destruct s as [[s00 s01 s02] [s10 s11 s12] [s20 s21 s22]].
  unfold entry, component in *. unfold_arrays. simpl in *. subst s01 s02 s12.
  pose proof (Rle_0_sqr s00). pose proof (Rle_0_sqr s10). pose proof (Rle_0_sqr s11).
  pose proof (Rle_0_sqr s20). pose proof (Rle_0_sqr s21). pose proof (Rle_0_sqr s22).
  unfold Rsqr in *.
  destruct k as [|[|[|k]]]; [| | |lia]; simpl in Hm;
    intros i Hi; destruct i as [|[|[|i]]]; try lia; simpl; nra.
Qed.

Lemma planar_sweep_exact :
  residual_ss (map (fun p => ellipsoid_terms p (hard_iron_offset planar_sweep)) planar_sweep)
    (repeat 1 (length planar_sweep)) (V6 1 1 0 0 0 0) = 0.
Proof.
  rewrite planar_offset, residual_on_terms. apply fit_error_zero.
  intros q Hq. apply in_map_iff in Hq.
  destruct Hq as (p & <- & Hp). unfold planar_sweep in Hp.
  apply in_concat_repeat in Hp. simpl in Hp.
  repeat (destruct Hp as [<-|Hp]; [unfold quadric; simpl; lra|]). contradiction.
Qed.

Lemma planar_least_squares :
  least_squares (map (fun p => ellipsoid_terms p (hard_iron_offset planar_sweep)) planar_sweep)
    (repeat 1 (length planar_sweep)) (V6 1 1 0 0 0 0).
Proof.
  intros w. rewrite planar_sweep_exact, residual_on_terms. apply fit_error_nonneg.
Qed.

Lemma planar_least_norm (w : Vec6) :
  least_squares (map (fun p => ellipsoid_terms p (hard_iron_offset planar_sweep)) planar_sweep)
    (repeat 1 (length planar_sweep)) w ->
  dot6 (V6 1 1 0 0 0 0) (V6 1 1 0 0 0 0) <= dot6 w w.
Proof.
  intros Hw. pose proof (Hw (V6 1 1 0 0 0 0)) as Hle.
  rewrite planar_sweep_exact in Hle.
  rewrite planar_offset, residual_on_terms in Hle.
  set (centred := map (fun p => V3 (vx p - vx vzero) (vy p - vy vzero) (vz p - vz vzero))
                    planar_sweep) in Hle.
  pose proof (fit_error_nonneg centred w) as Hge.
  assert (Hfit : fit_error centred w = 0) by lra.
  pose proof (proj1 (fit_error_zero _ _) Hfit) as Hall.
  assert (H1 : quadric w (V3 (1 - 0) (0 - 0) (0 - 0)) = 1).
  { apply Hall. unfold centred, planar_sweep.
    apply (in_map (fun p => V3 (vx p - vx vzero) (vy p - vy vzero) (vz p - vz vzero))
             _ (V3 1 0 0)).
    apply in_concat_repeat. simpl. tauto. }
  assert (H2 : quadric w (V3 (0 - 0) (1 - 0) (0 - 0)) = 1).
  { apply Hall. unfold centred, planar_sweep.
    apply (in_map (fun p => V3 (vx p - vx vzero) (vy p - vy vzero) (vz p - vz vzero))
             _ (V3 0 1 0)).
    apply in_concat_repeat. simpl. tauto. }
  unfold quadric in H1, H2. simpl in H1, H2. unfold dot6. simpl.
  assert (c0 w = 1) by lra. assert (c1 w = 1) by lra.
  pose proof (Rle_0_sqr (c2 w)). pose proof (Rle_0_sqr (c3 w)).
  pose proof (Rle_0_sqr (c4 w)). pose proof (Rle_0_sqr (c5 w)).
  unfold Rsqr in *. nra.
Qed.

(** C1, as the code has it.  The fit has no degeneracy check: every sample
    set of at least 50 points is fitted, and an offset and a transform are
    returned and saved whatever the eigenvalues [L] of the fitted matrix [M]
    are.  Where no eigenvalue is negative the transform is [Q sqrt(L) Q^T]
    entry by entry, and a zero eigenvalue of [M] is then a zero eigenvalue of
    the transform for the same eigenvector.  For samples with no variance
    along axis [k], with [lstsq] returning the least-squares solution of
    least norm, [M] annihilates that axis (its row and its column [k] are
    zero); the transform annihilates the axis too when [(L, Q)] is an
    eigendecomposition of [M] without a negative eigenvalue. *)
Theorem degenerate_fit_is_returned
    (lstsq : list Vec6 -> list R -> Vec6) (eigh : Mat3 -> Vec3 * Mat3)
    (file : CalibrationFile) (rows : list Vec3) :
  (50 <= length rows)%nat ->
  let offset := hard_iron_offset rows in
  let D := map (fun p => ellipsoid_terms p offset) rows in
  let b := repeat 1 (length rows) in
  let v := lstsq D b in
  let M := form_matrix v in
  let L := fst (eigh M) in
  let Q := snd (eigh M) in
  exists transform,
    calculate_and_save_calibration lstsq eigh file (Some rows)
    = (Some (offset, transform), Some (offset, transform))
    /\ (nonneg3 L ->
        forall i j, (i < 3)%nat -> (j < 3)%nat ->
          entry transform i j = spectral_root_entry L Q i j)
    /\ (nonneg3 L -> orthogonal Q ->
          (vx L = 0 -> matvec transform (col0 Q) = vzero)
          /\ (vy L = 0 -> matvec transform (col1 Q) = vzero)
          /\ (vz L = 0 -> matvec transform (col2 Q) = vzero))
    /\ (least_squares D b v ->
        (forall w, least_squares D b w -> dot6 v v <= dot6 w w) ->
        forall k, (k < 3)%nat ->
          (forall p q, In p rows -> In q rows -> component p k = component q k) ->
          (forall i, (i < 3)%nat -> entry M i k = 0 /\ entry M k i = 0)
          /\ (nonneg3 L -> eigendecomposition M (L, Q) ->
                forall i, (i < 3)%nat -> entry transform i k = 0)).
Proof.
  intros Hlen offset D b v M L Q.
  exists (matmul (matmul Q (diag (vmap sqrt L))) (transpose Q)).
  split.
  { rewrite calculate_accepts by assumption. fold offset.
    now rewrite soft_iron_terms. }
  split; [intros _ i j; apply root_entries|].
  split.
  { intros _ (Hq & _).
    destruct (@conjugated_diag_eigenvectors Q (vmap sqrt L) Hq) as (E0 & E1 & E2).
    repeat split; intros Hz.
    - rewrite E0. simpl. rewrite Hz, sqrt_0. apply vec3_eq; simpl; ring.
    - rewrite E1. simpl. rewrite Hz, sqrt_0. apply vec3_eq; simpl; ring.
    - rewrite E2. simpl. rewrite Hz, sqrt_0. apply vec3_eq; simpl; ring. }
  intros Hls Hnorm k Hk Hplane.
  assert (Hne : rows <> []) by (destruct rows; [simpl in Hlen; lia|discriminate]).
  pose proof (@planar_form_matrix rows v k Hne Hk Hplane Hls Hnorm) as HM.
  split; [exact HM|].
  intros Hpos Hdec.
  apply (@symmetric_root_column _ M k Hk).
  - intros i j. apply root_entries_symmetric.
  - now apply root_squares_to_matrix.
  - apply (HM k Hk).
Qed.

(** The planar sweep, with the answers [lstsq] and [eigh] owe on it: the
    fit is returned, and the returned transform annihilates the normal of the
    plane. *)
Lemma degenerate_fit_is_returned_witness :
  (50 <= length planar_sweep)%nat
  /\ (forall p q, In p planar_sweep -> In q planar_sweep -> vz p = vz q)
  /\ exists transform,
       calculate_and_save_calibration planar_lstsq planar_eigh None (Some planar_sweep)
       = (Some (hard_iron_offset planar_sweep, transform),
          Some (hard_iron_offset planar_sweep, transform))
       /\ matvec transform (V3 0 0 1) = vzero
       /\ entry transform 0 2 = 0 /\ entry transform 1 2 = 0 /\ entry transform 2 2 = 0.
Proof.
  assert (H : (50 <= length planar_sweep)%nat) by (simpl; lia).
  assert (Hplane : forall p q, In p planar_sweep -> In q planar_sweep -> vz p = vz q).
  { intros p q Hp Hq. unfold planar_sweep in Hp, Hq.
    apply in_concat_repeat in Hp. apply in_concat_repeat in Hq. simpl in Hp, Hq.
    assert (Hzp : vz p = 0).
    { repeat (destruct Hp as [<-|Hp]; [reflexivity|]). contradiction. }
    assert (Hzq : vz q = 0).
    { repeat (destruct Hq as [<-|Hq]; [reflexivity|]). contradiction. }
    now rewrite Hzp, Hzq. }
  split; [exact H|]. split; [exact Hplane|].
  destruct (@degenerate_fit_is_returned planar_lstsq planar_eigh None planar_sweep H)
    as (transform & Hret & _ & Hzero & Hflat).
  assert (Hpos : nonneg3 (V3 0 1 1)) by (unfold nonneg3; simpl; lra).
  assert (Hdec : eigendecomposition (form_matrix (V6 1 1 0 0 0 0))
                   (V3 0 1 1, M3 (V3 0 1 0) (V3 0 0 1) (V3 1 0 0))).
  { split; [split|]; simpl; mat_ring. }
  destruct (Hflat planar_least_squares planar_least_norm 2%nat (le_n 3) Hplane)
    as (_ & Hcol).
  specialize (Hcol Hpos Hdec).
  exists transform. split; [exact Hret|]. split.
  - apply Hzero; [exact Hpos|split; simpl; mat_ring|reflexivity].
  - repeat split; apply Hcol; lia.
Defined.

(** ** The calibration file between two runs *)

Lemma mat3_by_entries (a c : Mat3) :
  (forall i j, (i < 3)%nat -> (j < 3)%nat -> entry a i j = entry c i j) -> a = c.
Proof.
  intros H.
  pose proof (H 0%nat 0%nat) as H00. pose proof (H 0%nat 1%nat) as H01.
  pose proof (H 0%nat 2%nat) as H02. pose proof (H 1%nat 0%nat) as H10.
  pose proof (H 1%nat 1%nat) as H11. pose proof (H 1%nat 2%nat) as H12.
  pose proof (H 2%nat 0%nat) as H20. pose proof (H 2%nat 1%nat) as H21.
  pose proof (H 2%nat 2%nat) as H22.
  destruct a as [[] [] []], c as [[] [] []]. unfold entry, component in *. simpl in *.
  rewrite H00, H01, H02, H10, H11, H12, H20, H21, H22 by lia. reflexivity.
Qed.

Lemma ellipsoid_root_entries (i j : nat) :
  (i < 3)%nat -> (j < 3)%nat ->
  spectral_root_entry (V3 0.25 1 4) (M3 (V3 0 1 0) (V3 0 0 1) (V3 1 0 0)) i j
  = entry (diag (V3 1 2 0.5)) i j.
Proof.
  intros Hi Hj.
  assert (E025 : sqrt 0.25 = 0.5).
  { replace 0.25 with (0.5 * 0.5) by lra. apply sqrt_of_square. lra. }
  assert (E4 : sqrt 4 = 2).
  { replace 4 with (2 * 2) by lra. apply sqrt_of_square. lra. }
  destruct i as [|[|[|i]]]; [| | |lia]; destruct j as [|[|[|j]]]; try lia;
    unfold spectral_root_entry, entry, component; simpl;
    rewrite E025, sqrt_1, E4; lra.
Qed.

(** X3.  Round trip through the calibration file: after a run that fitted
    at least 50 collected samples, the file holds the very offset and matrix
    that the fit returned (the per-axis midpoint, and [Q sqrt(L) Q^T] entry
    by entry where no eigenvalue is negative), and a later run in which the
    user accepts the file tracks with exactly those parameters, without
    collecting and without touching the file. *)
Theorem saved_parameters_are_reloaded
    (lstsq : list Vec6 -> list R -> Vec6) (eigh : Mat3 -> Vec3 * Mat3)
    (first : MainInput) (lines : list SerialLine) :
  match file_before first with
  | Some _ => use_existing first
  | None => false
  end = false ->
  collection_port first = Some lines ->
  (50 <= length (readings lines))%nat ->
  let rows := readings lines in
  let offset := hard_iron_offset rows in
  let M := form_matrix (lstsq (map (fun p => ellipsoid_terms p offset) rows)
                          (repeat 1 (length rows))) in
  let L := fst (eigh M) in
  let Q := snd (eigh M) in
  exists matrix,
    fst (calculate_and_save_calibration lstsq eigh (file_before first) (Some rows))
    = Some (offset, matrix)
    /\ main lstsq eigh first = (live_stage first offset matrix, Some (offset, matrix))
    /\ (nonneg3 L ->
        forall i j, (i < 3)%nat -> (j < 3)%nat ->
          entry matrix i j = spectral_root_entry L Q i j)
    /\ forall later,
         file_before later = snd (main lstsq eigh first) ->
         use_existing later = true ->
         main lstsq eigh later = (live_stage later offset matrix, Some (offset, matrix)).
Proof.
  intros Hl Hc Hlen rows offset M L Q.
  exists (matmul (matmul Q (diag (vmap sqrt L))) (transpose Q)).
  assert (Hfit : calculate_and_save_calibration lstsq eigh (file_before first) (Some rows)
                 = (Some (offset, matmul (matmul Q (diag (vmap sqrt L))) (transpose Q)),
                    Some (offset, matmul (matmul Q (diag (vmap sqrt L))) (transpose Q)))).
  { rewrite calculate_accepts by assumption. fold offset.
    now rewrite soft_iron_terms. }
  assert (Hmain : main lstsq eigh first
                  = (live_stage first offset
                       (matmul (matmul Q (diag (vmap sqrt L))) (transpose Q)),
                     Some (offset, matmul (matmul Q (diag (vmap sqrt L))) (transpose Q)))).
  { unfold main. rewrite Hc, collect_calibration_data_eq. fold rows. rewrite Hfit.
    destruct (file_before first) as [[o m]|]; [rewrite Hl|]; reflexivity. }
  split; [now rewrite Hfit|]. split; [exact Hmain|].
  split; [intros _ i j; apply root_entries|].
  intros later Hf Hu. rewrite Hmain in Hf. simpl in Hf.
  unfold main. now rewrite Hf, Hu.
Qed.

(** The ellipsoid sweep behind two lines that yield no reading: the first
    run saves the centre (1, 2, 3) and [diag(1, 2, 1/2)], and the next run,
    accepting the file and declining to track, leaves with the file as it
    was. *)
Lemma saved_parameters_are_reloaded_witness :
  let port := Skipped :: Garbled :: map Reading ellipsoid_sweep in
  let first := mkInput None false (Some port) false None in
  (50 <= length (readings port))%nat
  /\ main ellipsoid_lstsq ellipsoid_eigh first
     = (Declined, Some (V3 1 2 3, diag (V3 1 2 0.5)))
  /\ main ellipsoid_lstsq ellipsoid_eigh
       (mkInput (Some (V3 1 2 3, diag (V3 1 2 0.5))) true None false None)
     = (Declined, Some (V3 1 2 3, diag (V3 1 2 0.5))).
Proof.
  intros port first.
  assert (H : (50 <= length (readings port))%nat) by (simpl; lia).
  split; [exact H|].
  destruct (@saved_parameters_are_reloaded ellipsoid_lstsq ellipsoid_eigh first port
              eq_refl eq_refl H)
    as (matrix & _ & Hmain & Hent & Hlater).
  change (readings port) with ellipsoid_sweep in Hmain, Hent, Hlater.
  rewrite ellipsoid_offset in Hmain, Hlater.
  assert (matrix = diag (V3 1 2 0.5)) as ->.
  { apply mat3_by_entries. intros i j Hi Hj.
    rewrite Hent by (try assumption; unfold nonneg3; simpl; lra).
    now apply ellipsoid_root_entries. }
  split; [exact Hmain|].
  apply (Hlater (mkInput (Some (V3 1 2 3, diag (V3 1 2 0.5))) true None false None)).
  - rewrite Hmain. reflexivity.
  - reflexivity.
Defined.

End CalibrationFacts.
